(** * AgentOS: stock ledger, reservations and the order lifecycle

    A shallow embedding of the order-creation core of the AgentOS backend:

    - [ProductRepository.update_stock_atomic] and [ProductRepository.update]
      (app/modules/sales/repository.py),
    - [OrderService.create_order] and [OrderService.update_order_status]
      (the sales service module),

    over a small model of the document store they talk to.  Documents are
    finite maps from field names to values, collections are finite maps from
    [_id] to documents, and Python's exceptions are an explicit result type
    threaded through a state monad over the whole store. *)

From Stdlib Require Import ZArith List Bool Ascii String Lia.
From stdpp Require Import base gmap strings list fin_maps.

Local Open Scope string_scope.
Local Open Scope list_scope.
Local Open Scope Z_scope.

(** ** Values, documents, exceptions *)

(** bson [ObjectId]s are carried by their 24-digit hexadecimal rendering, so
    that [str(pid)] is the identity. *)
Abbreviation ObjectId := string (only parsing).

(** Exact decimals ([decimal.Decimal] quantized to two places) are carried as
    an integer number of hundredths. *)
Abbreviation Decimal := Z (only parsing).

(** One entry of a product's [price_history]. *)
Record PriceHistoryEntry := {
  ph_user_id : option ObjectId;
  ph_reason : string;
  ph_prices : list (string * string);
}.

(** The values a stored field can take. *)
Inductive value :=
| VNone
| VBool (b : bool)
| VInt (n : Z)
| VStr (s : string)
| VDate (t : Z)
| VPrices (p : list (string * string))
| VHistory (h : list PriceHistoryEntry).

(** The Python exception classes the modelled code raises or catches. *)
Inductive Exn :=
| HTTPException (status_code : Z) (detail : string)
| ValueError (msg : string)
| RuntimeError (msg : string)
| ReservationError (msg : string)
| PyMongoError (msg : string)
| DuplicateKeyError (msg : string)
| OtherException (msg : string).

(** The two error classes the repositories surface to the services
    ([except ValueError] for duplicate keys, [except RuntimeError] for any
    other database error). *)
Inductive RepoError :=
| RepoValueError (msg : string)
| RepoRuntimeError (msg : string).

Definition exn_of_repo_error (e : RepoError) : Exn :=
  match e with
  | RepoValueError m => ValueError m
  | RepoRuntimeError m => RuntimeError m
  end.

Inductive Res (A : Type) :=
| Ok (a : A)
| Raise (e : Exn).
Arguments Ok {A} a.
Arguments Raise {A} e.

(** ** Orders and transactions *)

Record OrderItemInternal := {
  item_product_id : ObjectId;
  item_quantity : Z;
  item_product_name : string;
  item_price_at_purchase : Decimal;
  item_selected_price_tier : string;
  item_margin_at_purchase : option Decimal;
}.

Record OrderCreateInternal := {
  oc_customer_id : ObjectId;
  oc_order_ref : string;
  oc_items : list OrderItemInternal;
  oc_total_amount : Decimal;
  oc_status : string;
  oc_channel : option string;
}.

Record OrderInDB := {
  order_db_id : ObjectId;
  order_customer_id : ObjectId;
  order_ref : string;
  order_items : list OrderItemInternal;
  order_total_amount : Decimal;
  order_status : string;
  order_channel : option string;
  order_transaction_ids : list ObjectId;
  order_actual_delivery_date : option Z;
  order_notes : option string;
  order_currency : option string;
}.

Record TransactionCreateInternal := {
  trx_type : string;
  trx_amount : Decimal;
  trx_currency : string;
  trx_description : string;
  trx_status : string;
  trx_associated_order_id : ObjectId;
  trx_associated_user_id : ObjectId;
}.

(** ** Calls to collaborators, as observable events *)

Inductive Event :=
| EvReserveStock (reservation_id : string) (pid : ObjectId) (qty : Z)
| EvReleaseOrConfirmSingle (reservation_id : string) (pid : ObjectId) (confirm : bool)
| EvReleaseReservation (reservation_id : string)
| EvConfirmReservation (reservation_id : string)
| EvRecordTransaction (trx : TransactionCreateInternal)
| EvAddTransactionId (oid : ObjectId) (trx_id : ObjectId)
| EvMarkItemsAsSold (oid : ObjectId) (quantities : gmap string Z)
| EvOrderCreate (data : OrderCreateInternal)
| EvOrderStatusWrite (oid : ObjectId) (new_status : string).

(** ** The world the services run in *)

(** [products] and [orders] are the two collections.  [product_faults] and
    [order_faults] script the infrastructure: each driver call consumes the
    head of its script and fails with it when it is [Some]; an exhausted
    script means a healthy database.  [fresh_ids] are the [_id]s the store
    will assign, [banking] and [stock_service] script the two external
    collaborators, [reservations] is the reservation service's own record of
    what it holds, [trace] is the sequence of collaborator calls made so
    far (oldest first), [clock] is what [datetime.utcnow()] answers and
    [settings_DEFAULT_CURRENCY] is the configured default currency. *)
Record World := {
  products : gmap string (gmap string value);
  product_faults : list (option Exn);
  reservations : list (string * ObjectId * Z);
  orders : gmap string OrderInDB;
  order_faults : list (option RepoError);
  fresh_ids : list ObjectId;
  banking : list (Res ObjectId);
  stock_service : list (option Exn);
  trace : list Event;
  clock : Z;
  settings_DEFAULT_CURRENCY : string;
}.

Definition set_products (f : gmap string (gmap string value) → gmap string (gmap string value)) (w : World) : World :=
  {| products := f (products w); product_faults := product_faults w;
     reservations := reservations w; orders := orders w;
     order_faults := order_faults w; fresh_ids := fresh_ids w;
     banking := banking w; stock_service := stock_service w;
     trace := trace w; clock := clock w;
     settings_DEFAULT_CURRENCY := settings_DEFAULT_CURRENCY w |}.

Definition set_product_faults (f : list (option Exn) → list (option Exn)) (w : World) : World :=
  {| products := products w; product_faults := f (product_faults w);
     reservations := reservations w; orders := orders w;
     order_faults := order_faults w; fresh_ids := fresh_ids w;
     banking := banking w; stock_service := stock_service w;
     trace := trace w; clock := clock w;
     settings_DEFAULT_CURRENCY := settings_DEFAULT_CURRENCY w |}.

Definition set_reservations (f : list (string * ObjectId * Z) → list (string * ObjectId * Z)) (w : World) : World :=
  {| products := products w; product_faults := product_faults w;
     reservations := f (reservations w); orders := orders w;
     order_faults := order_faults w; fresh_ids := fresh_ids w;
     banking := banking w; stock_service := stock_service w;
     trace := trace w; clock := clock w;
     settings_DEFAULT_CURRENCY := settings_DEFAULT_CURRENCY w |}.

Definition set_orders (f : gmap string OrderInDB → gmap string OrderInDB) (w : World) : World :=
  {| products := products w; product_faults := product_faults w;
     reservations := reservations w; orders := f (orders w);
     order_faults := order_faults w; fresh_ids := fresh_ids w;
     banking := banking w; stock_service := stock_service w;
     trace := trace w; clock := clock w;
     settings_DEFAULT_CURRENCY := settings_DEFAULT_CURRENCY w |}.

Definition set_order_faults (f : list (option RepoError) → list (option RepoError)) (w : World) : World :=
  {| products := products w; product_faults := product_faults w;
     reservations := reservations w; orders := orders w;
     order_faults := f (order_faults w); fresh_ids := fresh_ids w;
     banking := banking w; stock_service := stock_service w;
     trace := trace w; clock := clock w;
     settings_DEFAULT_CURRENCY := settings_DEFAULT_CURRENCY w |}.

Definition set_fresh_ids (f : list ObjectId → list ObjectId) (w : World) : World :=
  {| products := products w; product_faults := product_faults w;
     reservations := reservations w; orders := orders w;
     order_faults := order_faults w; fresh_ids := f (fresh_ids w);
     banking := banking w; stock_service := stock_service w;
     trace := trace w; clock := clock w;
     settings_DEFAULT_CURRENCY := settings_DEFAULT_CURRENCY w |}.

Definition set_banking (f : list (Res ObjectId) → list (Res ObjectId)) (w : World) : World :=
  {| products := products w; product_faults := product_faults w;
     reservations := reservations w; orders := orders w;
     order_faults := order_faults w; fresh_ids := fresh_ids w;
     banking := f (banking w); stock_service := stock_service w;
     trace := trace w; clock := clock w;
     settings_DEFAULT_CURRENCY := settings_DEFAULT_CURRENCY w |}.

Definition set_stock_service (f : list (option Exn) → list (option Exn)) (w : World) : World :=
  {| products := products w; product_faults := product_faults w;
     reservations := reservations w; orders := orders w;
     order_faults := order_faults w; fresh_ids := fresh_ids w;
     banking := banking w; stock_service := f (stock_service w);
     trace := trace w; clock := clock w;
     settings_DEFAULT_CURRENCY := settings_DEFAULT_CURRENCY w |}.

Definition set_trace (f : list Event → list Event) (w : World) : World :=
  {| products := products w; product_faults := product_faults w;
     reservations := reservations w; orders := orders w;
     order_faults := order_faults w; fresh_ids := fresh_ids w;
     banking := banking w; stock_service := stock_service w;
     trace := f (trace w); clock := clock w;
     settings_DEFAULT_CURRENCY := settings_DEFAULT_CURRENCY w |}.

(** ** The state-and-exception monad

    A raised exception keeps whatever the world had become when it was
    raised, as in Python: nothing is rolled back. *)

Definition M (A : Type) : Type := World → Res A * World.

Definition ret {A} (a : A) : M A := fun w => (Ok a, w).

Definition raise {A} (e : Exn) : M A := fun w => (Raise e, w).

Definition bind {A B} (m : M A) (k : A → M B) : M B := fun w =>
  match m w with
  | (Ok a, w') => k a w'
  | (Raise e, w') => (Raise e, w')
  end.

(** [try: m except e: h e]. *)
Definition try_except {A} (m : M A) (h : Exn → M A) : M A := fun w =>
  match m w with
  | (Ok a, w') => (Ok a, w')
  | (Raise e, w') => h e w'
  end.

Notation "x <~ m ;; k" := (bind m (fun x => k))
  (at level 100, m at next level, right associativity).
Notation "m ;;; k" := (bind m (fun _ => k))
  (at level 100, right associativity).

Definition log_event (e : Event) : M unit := fun w =>
  (Ok tt, set_trace (fun t => t ++ [e]) w).

(** [datetime.utcnow()]. *)
Definition utcnow : M Z := fun w => (Ok (clock w), w).

(** [await asyncio.gather] with [return_exceptions=True]: every task runs,
    in list order, and its result or exception is collected; the gather
    itself never raises. *)
Fixpoint gather_return_exceptions {A} (tasks : list (M A)) : M (list (Res A)) := fun w =>
  match tasks with
  | [] => (Ok [], w)
  | t :: ts =>
      let '(r, w1) := t w in
      match gather_return_exceptions ts w1 with
      | (Ok rs, w2) => (Ok (r :: rs), w2)
      | (Raise e, w2) => (Raise e, w2)
      end
  end.

(** ** The products collection *)

(** A filter document [{"_id": id, f1: {"$gte": n1}, ...}]. *)
Record Query := {
  q_id : ObjectId;
  q_gte : list (string * Z);
}.

(** An update document [{"$set": {...}, "$inc": {...}}]. *)
Record UpdateOp := {
  op_set : list (string * value);
  op_inc : list (string * Z);
}.

(** [query[field] = {"$gte": n}] *)
Definition query_gte (field : string) (n : Z) (q : Query) : Query :=
  {| q_id := q_id q; q_gte := (field, n) :: q_gte q |}.

(** [update_op["$inc"] = incs] *)
Definition with_inc (incs : list (string * Z)) (u : UpdateOp) : UpdateOp :=
  {| op_set := op_set u; op_inc := incs |}.

Definition doc_int (d : gmap string value) (field : string) : option Z :=
  match d !! field with
  | Some (VInt n) => Some n
  | _ => None
  end.

(** [{"$gte": n}] holds of a field that exists, is numeric and is at least
    [n]. *)
Definition field_gte (d : gmap string value) (c : string * Z) : bool :=
  match doc_int d c.1 with
  | Some v => c.2 <=? v
  | None => false
  end.

Definition matches (q : Query) (d : gmap string value) : bool :=
  forallb (field_gte d) (q_gte q).

Definition doc_set (d : gmap string value) (kv : string * value) : gmap string value :=
  <[kv.1 := kv.2]> d.

(** [$inc] adds to a numeric field, creates an absent one, and is a write
    error on anything else. *)
Definition doc_inc (d : option (gmap string value)) (kz : string * Z) : option (gmap string value) :=
  match d with
  | None => None
  | Some d =>
      match d !! kz.1 with
      | None => Some (<[kz.1 := VInt kz.2]> d)
      | Some (VInt v) => Some (<[kz.1 := VInt (v + kz.2)]> d)
      | Some _ => None
      end
  end.

Definition apply_update (u : UpdateOp) (d : gmap string value) : option (gmap string value) :=
  fold_left doc_inc (op_inc u) (Some (fold_left doc_set (op_set u) d)).

(** [collection.find_one_and_update(query, update_op)] on the products
    collection: one indivisible step of the store.  It answers with the
    document as it was before the update, or [None] when no document matches
    the filter, in which case nothing is written. *)
Definition find_one_and_update (q : Query) (u : UpdateOp) : M (option (gmap string value)) := fun w =>
  match product_faults w with
  | Some e :: _ => (Raise e, set_product_faults (@tail _) w)
  | _ =>
      let w1 := set_product_faults (@tail _) w in
      match products w !! q_id q with
      | None => (Ok None, w1)
      | Some d =>
          if matches q d then
            match apply_update u d with
            | Some d' => (Ok (Some d), set_products (insert (q_id q) d') w1)
            | None => (Raise (PyMongoError "Cannot apply $inc to a value of non-numeric type"), w1)
            end
          else (Ok None, w1)
      end
  end.

Definition exn_message (e : Exn) : string :=
  match e with
  | HTTPException _ m | ValueError m | RuntimeError m | ReservationError m
  | PyMongoError m | DuplicateKeyError m | OtherException m => m
  end.

(** Modelled from the spec: [BaseRepository._handle_db_exception] is defined
    in app/core/repository.py, which is not among the sources.  It logs the
    failed operation and raises (section 4.1: infrastructure failures
    propagate as errors; [ProductRepository.update] calls it under the comment
    that it logs and raises the error): a duplicate key as [ValueError], any
    other database error as [RuntimeError], the two classes the services
    catch around repository calls. *)
Definition _handle_db_exception (e : Exn) (operation : string) (id : ObjectId) : M unit :=
  match e with
  | DuplicateKeyError m => raise (ValueError m)
  | _ => raise (RuntimeError (exn_message e))
  end.

Definition is_some {A} (o : option A) : bool :=
  match o with Some _ => true | None => false end.

(** The filter and the update document that [update_stock_atomic] builds
    before it goes to the store. *)
Definition stock_query_and_update (now : Z) (product_id : ObjectId) (quantity_change : Z)
    (is_reservation : bool) : Query * UpdateOp :=
  let query := {| q_id := product_id; q_gte := [] |} in
  let update_op := {| op_set := [("updated_at", VDate now)]; op_inc := [] |} in
  if is_reservation then
    let query :=
      if 0 <? quantity_change
      then query_gte "stock_quantity" quantity_change query
      else query in
    let query :=
      if quantity_change <? 0
      then query_gte "reserved_stock" (Z.abs quantity_change) query
      else query in
    (query, with_inc [("reserved_stock", quantity_change)] update_op)
  else
    let abs_change := Z.abs quantity_change in
    if quantity_change <? 0 then
      (query_gte "reserved_stock" abs_change (query_gte "stock_quantity" abs_change query),
       with_inc [("stock_quantity", quantity_change); ("reserved_stock", quantity_change)] update_op)
    else
      (query, with_inc [("stock_quantity", quantity_change)] update_op).

(** [ProductRepository.update_stock_atomic(product_id, quantity_change,
    is_reservation)]. *)
Definition update_stock_atomic (product_id : ObjectId) (quantity_change : Z)
    (is_reservation : bool) : M bool :=
  now <~ utcnow ;;
  let qu := stock_query_and_update now product_id quantity_change is_reservation in
  try_except
    (result <~ find_one_and_update qu.1 qu.2 ;;
     let success := is_some result in
     ret success)
    (fun e =>
       _handle_db_exception e "update_stock_atomic" product_id ;;;
       ret false).

(** The four usage patterns of the ledger primitive. *)
Definition reserve (pid : ObjectId) (q : Z) : M bool := update_stock_atomic pid q true.
Definition release (pid : ObjectId) (q : Z) : M bool := update_stock_atomic pid (- q) true.
Definition confirm (pid : ObjectId) (q : Z) : M bool := update_stock_atomic pid (- q) false.
Definition restock (pid : ObjectId) (q : Z) : M bool := update_stock_atomic pid q false.

(** The ledger fields of a product document, and the derived
    [available_stock] property of [ProductInDB]. *)
Definition stock_quantity (d : gmap string value) : option Z := doc_int d "stock_quantity".
Definition reserved_stock (d : gmap string value) : option Z := doc_int d "reserved_stock".
Definition available_stock (d : gmap string value) : option Z :=
  match stock_quantity d, reserved_stock d with
  | Some s, Some r => Some (s - r)
  | _, _ => None
  end.

(** A product document as [ProductInDB] makes them. *)
Definition product_doc (stock reserved : Z) : gmap string value :=
  {[ "stock_quantity" := VInt stock; "reserved_stock" := VInt reserved;
     "updated_at" := VDate 0 ]}.

Definition empty_world : World :=
  {| products := ∅; product_faults := []; reservations := []; orders := ∅;
     order_faults := []; fresh_ids := []; banking := []; stock_service := [];
     trace := []; clock := 0; settings_DEFAULT_CURRENCY := "BRL" |}.


(** ** The reservation service *)

(** The first record held for [(reservation_id, pid)]: its quantity, and the
    records without it. *)
Fixpoint take_record (reservation_id : string) (pid : ObjectId)
    (rs : list (string * ObjectId * Z)) : option (Z * list (string * ObjectId * Z)) :=
  match rs with
  | [] => None
  | r :: rs' =>
      if String.eqb r.1.1 reservation_id && String.eqb r.1.2 pid
      then Some (r.2, rs')
      else match take_record reservation_id pid rs' with
           | Some (q, rest) => Some (q, r :: rest)
           | None => None
           end
  end.

(** The [(product, quantity)] pairs a reservation holds, oldest first. *)
Definition reservation_items (reservation_id : string)
    (rs : list (string * ObjectId * Z)) : list (ObjectId * Z) :=
  map (fun r => (r.1.2, r.2))
      (List.filter (fun r => String.eqb r.1.1 reservation_id) rs).

Fixpoint for_each {A} (f : A → M unit) (l : list A) : M unit :=
  match l with
  | [] => ret tt
  | a :: l' => f a ;;; for_each f l'
  end.

(** Modelled from the spec: [StockReservationService.reserve_stock] is
    defined in sales/reservation_service.py, which is not among the sources.
    Section 4.2: a per-item reserve attempt is the ledger's reserve pattern,
    and the reservation, keyed by the order reference, is composed of the
    [(product_id, quantity)] pairs that were reserved. *)
Definition reserve_stock (reservation_id : string) (pid : ObjectId) (qty : Z) : M bool :=
  log_event (EvReserveStock reservation_id pid qty) ;;;
  ok <~ update_stock_atomic pid qty true ;;
  if ok then
    (fun w => (Ok true, set_reservations (fun rs => rs ++ [(reservation_id, pid, qty)]) w))
  else ret false.

(** Modelled from the spec: the per-item step shared by release and confirm
    in the absent reservation service.  Section 4.2: release applies the
    release pattern, confirm the confirm pattern, to an item previously
    reserved; releasing an already-released or never-reserved item is a
    no-op, not an error.  Section 7 (ReservationInconsistency): a call that
    finds the ledger altered away from the reserved amount is an error of its
    own kind, [ReservationError] in the code. *)
Definition release_or_confirm_item (reservation_id : string) (pid : ObjectId)
    (confirm : bool) : M unit := fun w =>
  match take_record reservation_id pid (reservations w) with
  | None => (Ok tt, w)
  | Some (q, rest) =>
      (ok <~ update_stock_atomic pid (- q) (negb confirm) ;;
       if ok then (fun w' => (Ok tt, set_reservations (fun _ => rest) w'))
       else raise (ReservationError "ledger does not hold the reserved quantity")) w
  end.

(** Modelled from the spec: [StockReservationService._release_or_confirm_single]
    of the absent reservation service, the call [create_order] issues for
    each compensating release. *)
Definition _release_or_confirm_single (reservation_id : string) (pid : ObjectId)
    (confirm : bool) : M unit :=
  log_event (EvReleaseOrConfirmSingle reservation_id pid confirm) ;;;
  release_or_confirm_item reservation_id pid confirm.

(** Modelled from the spec: [StockReservationService.release_reservation] of
    the absent reservation service.  Section 4.2: apply the release pattern
    for each item of the reservation. *)
Definition release_reservation (reservation_id : string) : M unit :=
  log_event (EvReleaseReservation reservation_id) ;;;
  (fun w =>
     for_each (fun it => release_or_confirm_item reservation_id it.1 false)
              (reservation_items reservation_id (reservations w)) w).

(** Modelled from the spec: [StockReservationService.confirm_reservation] of
    the absent reservation service.  Section 4.2: for each item previously
    reserved, apply the confirm pattern. *)
Definition confirm_reservation (reservation_id : string) : M unit :=
  log_event (EvConfirmReservation reservation_id) ;;;
  (fun w =>
     for_each (fun it => release_or_confirm_item reservation_id it.1 true)
              (reservation_items reservation_id (reservations w)) w).

(** ** The orders collection *)

Definition is_hex_digit (c : ascii) : bool :=
  let n := nat_of_ascii c in
  ((48 <=? n) && (n <=? 57) || (97 <=? n) && (n <=? 102) || (65 <=? n) && (n <=? 70))%nat.

(** Modelled from the spec: [BaseRepository._to_objectid] is defined in
    app/core/repository.py, which is not among the sources; identifiers are
    opaque (section 3), and a string is one when bson accepts it: 24
    hexadecimal digits. *)
Definition _to_objectid (s : string) : option ObjectId :=
  if (String.length s =? 24)%nat && forallb is_hex_digit (list_ascii_of_string s)
  then Some s else None.

(** Modelled from the spec: [BaseRepository.get_by_id] (absent
    app/core/repository.py), a read of the document with that [_id]. *)
Definition order_get_by_id (oid : ObjectId) : M (option OrderInDB) := fun w =>
  (Ok (orders w !! oid), w).

Definition pop_order_fault : M unit := fun w =>
  match order_faults w with
  | Some e :: _ => (Raise (exn_of_repo_error e), set_order_faults (@tail _) w)
  | _ => (Ok tt, set_order_faults (@tail _) w)
  end.

Definition order_ref_taken (ref : string) (os : gmap string OrderInDB) : bool :=
  existsb (fun kv => String.eqb (order_ref kv.2) ref) (map_to_list os).

(** Modelled from the spec: [BaseRepository.create], in which
    [OrderRepository.create(order_data_dict)] ends, belongs to the absent
    app/core/repository.py.  It inserts the document under a fresh [_id] and
    returns it; a failure to write is the PersistenceFailure of section 7,
    surfaced as [ValueError] for a duplicate key ([order_ref] carries a
    unique index) and as [RuntimeError] otherwise.  What
    [OrderRepository.create] does before, rendering decimals as strings, is
    the identity on amounts carried as hundredths. *)
Definition order_create (data : OrderCreateInternal) : M OrderInDB :=
  log_event (EvOrderCreate data) ;;;
  pop_order_fault ;;;
  (fun w =>
     if order_ref_taken (oc_order_ref data) (orders w)
     then (Raise (ValueError "duplicate key: order_ref"), w)
     else
       match fresh_ids w with
       | [] => (Raise (RuntimeError "insert failed"), w)
       | oid :: _ =>
           let o := {| order_db_id := oid;
                       order_customer_id := oc_customer_id data;
                       order_ref := oc_order_ref data;
                       order_items := oc_items data;
                       order_total_amount := oc_total_amount data;
                       order_status := oc_status data;
                       order_channel := oc_channel data;
                       order_transaction_ids := [];
                       order_actual_delivery_date := None;
                       order_notes := None;
                       order_currency := None |} in
           (Ok o, set_orders (insert oid o) (set_fresh_ids (@tail _) w))
       end).

(** The payload of the final status write:
    [{"status": ..., "actual_delivery_date": ..., "notes": ...}], the last two
    only when present. *)
Record OrderStatusUpdate := {
  upd_status : string;
  upd_actual_delivery_date : option Z;
  upd_notes : option string;
}.

Definition apply_status_update (u : OrderStatusUpdate) (o : OrderInDB) : OrderInDB :=
  {| order_db_id := order_db_id o;
     order_customer_id := order_customer_id o;
     order_ref := order_ref o;
     order_items := order_items o;
     order_total_amount := order_total_amount o;
     order_status := upd_status u;
     order_channel := order_channel o;
     order_transaction_ids := order_transaction_ids o;
     order_actual_delivery_date :=
       match upd_actual_delivery_date u with
       | Some t => Some t
       | None => order_actual_delivery_date o
       end;
     order_notes :=
       match upd_notes u with
       | Some n => Some n
       | None => order_notes o
       end;
     order_currency := order_currency o |}.

(** Modelled from the spec: [BaseRepository.update], in which
    [OrderRepository.update(id, update_payload)] ends, belongs to the absent
    app/core/repository.py.  Section 3: the status of an order is mutated by
    the lifecycle; the update sets the given fields on the stored document
    and returns the document, or [None] when there is none. *)
Definition order_update (oid : ObjectId) (u : OrderStatusUpdate) : M (option OrderInDB) :=
  log_event (EvOrderStatusWrite oid (upd_status u)) ;;;
  pop_order_fault ;;;
  (fun w =>
     match orders w !! oid with
     | None => (Ok None, w)
     | Some o =>
         let o' := apply_status_update u o in
         (Ok (Some o'), set_orders (insert oid o') w)
     end).

Definition add_to_set (x : ObjectId) (l : list ObjectId) : list ObjectId :=
  if existsb (String.eqb x) l then l else l ++ [x].

(** Modelled from the spec: what the absent [BaseRepository.update] does
    with [{"$addToSet": {"transaction_ids": id}}].  Section 3:
    [transaction_ids] holds the references created as a side effect of status
    transitions. *)
Definition order_add_transaction_id (oid : ObjectId) (trx_id : ObjectId) : M (option OrderInDB) :=
  log_event (EvAddTransactionId oid trx_id) ;;;
  pop_order_fault ;;;
  (fun w =>
     match orders w !! oid with
     | None => (Ok None, w)
     | Some o =>
         let o' := {| order_db_id := order_db_id o;
                      order_customer_id := order_customer_id o;
                      order_ref := order_ref o;
                      order_items := order_items o;
                      order_total_amount := order_total_amount o;
                      order_status := order_status o;
                      order_channel := order_channel o;
                      order_transaction_ids := add_to_set trx_id (order_transaction_ids o);
                      order_actual_delivery_date := order_actual_delivery_date o;
                      order_notes := order_notes o;
                      order_currency := order_currency o |} in
         (Ok (Some o'), set_orders (insert oid o') w)
     end).

(** ** External collaborators (section 6) *)

(** Modelled from the spec: [BankingService.record_transaction] belongs to
    the absent banking/services.py.  Section 6: the banking collaborator
    answers a record request with a transaction id; it is invoked, not
    defined, by the order lifecycle, and may fail. *)
Definition record_transaction (trx : TransactionCreateInternal) : M ObjectId :=
  log_event (EvRecordTransaction trx) ;;;
  (fun w =>
     match banking w with
     | [] => (Raise (RuntimeError "banking service unavailable"), w)
     | r :: _ =>
         match r with
         | Ok i => (Ok i, set_banking (@tail _) w)
         | Raise e => (Raise e, set_banking (@tail _) w)
         end
     end).

(** Modelled from the spec: [StockService.mark_items_as_sold] belongs to the
    absent stock/services.py.  Section 6: the stock disposition collaborator
    marks the units of an order as sold; it may fail. *)
Definition mark_items_as_sold (oid : ObjectId) (quantities : gmap string Z) : M unit :=
  log_event (EvMarkItemsAsSold oid quantities) ;;;
  (fun w =>
     match stock_service w with
     | Some e :: _ => (Raise e, set_stock_service (@tail _) w)
     | _ => (Ok tt, set_stock_service (@tail _) w)
     end).

(** ** [OrderService] *)

(** [isinstance(res, Exception) or not res] *)
Definition reservation_failed (res : Res bool) : bool :=
  match res with
  | Raise _ => true
  | Ok b => negb b
  end.

(** [[reservation_service.reserve_stock(reservation_id, pid, abs(qty))
      for pid, qty in stock_updates]] *)
Definition reserve_tasks (reservation_id : string)
    (stock_updates : list (ObjectId * Z)) : list (M bool) :=
  map (fun info => reserve_stock reservation_id info.1 (Z.abs info.2)) stock_updates.

(** [[info for info, res in zip(stock_updates, reserve_results)
      if isinstance(res, Exception) or not res]] *)
Definition failed_reservations (stock_updates : list (ObjectId * Z))
    (reserve_results : list (Res bool)) : list (ObjectId * Z) :=
  map fst (List.filter (fun ir => reservation_failed ir.2)
                       (combine stock_updates reserve_results)).

(** [[info[0] for info, res in zip(stock_updates, reserve_results)
      if not isinstance(res, Exception) and res]] *)
Definition successful_products (stock_updates : list (ObjectId * Z))
    (reserve_results : list (Res bool)) : list ObjectId :=
  map (fun ir => ir.1.1)
      (List.filter (fun ir => negb (reservation_failed ir.2))
                   (combine stock_updates reserve_results)).

(** [OrderService.create_order], from the reservation on.  What precedes it
    in the source only reads (customer validation, the pricing of the items
    with its advisory availability check) or numbers the order (the reference
    counter); it hands over the order to save, [order_data], whose
    [order_ref] is the reservation id, and [stock_updates], one
    [(product_id, -quantity)] pair per item. *)
Definition create_order (order_data : OrderCreateInternal)
    (stock_updates : list (ObjectId * Z)) : M OrderInDB :=
  let order_ref := oc_order_ref order_data in
  let reservation_id := order_ref in
  reserve_results <~ gather_return_exceptions (reserve_tasks reservation_id stock_updates) ;;
  match failed_reservations stock_updates reserve_results with
  | _ :: _ =>
      let successful := successful_products stock_updates reserve_results in
      (match successful with
       | _ :: _ =>
           let release_tasks :=
             map (fun pid => _release_or_confirm_single reservation_id pid false)
                 successful in
           gather_return_exceptions release_tasks ;;; ret tt
       | [] => ret tt
       end) ;;;
      raise (HTTPException 409 "Stock reservation failed for one or more items.")
  | [] =>
      try_except
        (created_order_db <~ order_create order_data ;;
         ret created_order_db)
        (fun e =>
           match e with
           | ValueError _ | RuntimeError _ =>
               release_reservation reservation_id ;;;
               raise (HTTPException 500
                        ("Could not save order after reserving stock: " +:+ exn_message e))
           | _ => raise e
           end)
  end.

(** The [valid_transitions] table of [update_order_status];
    [valid_transitions.get(current_status, [])]. *)
Definition valid_transitions (current_status : string) : list string :=
  if String.eqb current_status "pending" then ["confirmed"; "processing"; "cancelled"; "failed"]
  else if String.eqb current_status "confirmed" then ["processing"; "awaiting_shipment"; "cancelled"; "failed"]
  else if String.eqb current_status "processing" then ["awaiting_shipment"; "shipped"; "cancelled"; "failed"]
  else if String.eqb current_status "awaiting_shipment" then ["shipped"; "cancelled"; "failed"]
  else if String.eqb current_status "shipped" then ["delivered"; "returned"; "failed"]
  else if String.eqb current_status "delivered" then ["returned"]
  else if String.eqb current_status "cancelled" then []
  else if String.eqb current_status "failed" then []
  else if String.eqb current_status "returned" then []
  else [].

(** [x in xs] on strings. *)
Definition str_in (x : string) (xs : list string) : bool := existsb (String.eqb x) xs.

(** [{item.product_id: item.quantity for item in order.items}]: a later item
    of the same product overwrites an earlier one. *)
Definition prod_quantities (items : list OrderItemInternal) : gmap string Z :=
  fold_left (fun m it => <[item_product_id it := item_quantity it]> m) items ∅.

(** The [TransactionCreateInternal] that [update_order_status] builds for the
    income of an order. *)
Definition sale_income_trx (order : OrderInDB) (default_currency : string) : TransactionCreateInternal :=
  {| trx_type := "sale_income";
     trx_amount := order_total_amount order;
     trx_currency :=
       match order_currency order with
       | Some c => c
       | None => default_currency
       end;
     trx_description := "Receita Pedido " +:+ order_ref order;
     trx_status := "completed";
     trx_associated_order_id := order_db_id order;
     trx_associated_user_id := order_customer_id order |}.

(** Step 1 of [update_order_status]: the stock reservation of the order is
    released or confirmed; a [ReservationError] is logged and swallowed. *)
Definition process_reservation (order : OrderInDB) (new_status : string) : M unit :=
  let current_status := order_status order in
  try_except
    (let reservation_id := order_ref order in
     if str_in new_status ["cancelled"; "failed"; "returned"]
        && negb (String.eqb current_status new_status)
     then release_reservation reservation_id
     else if str_in new_status ["confirmed"; "paid"; "processing"]
             && String.eqb current_status "pending"
     then confirm_reservation reservation_id
     else ret tt)
    (fun e =>
       match e with
       | ReservationError _ => ret tt
       | _ => raise e
       end).

(** Step 2: the income transaction is requested from the banking service
    and its id is added to the order; any exception is logged and
    swallowed. *)
Definition register_transaction (order : OrderInDB) (new_status : string) : M unit :=
  let current_status := order_status order in
  if str_in new_status ["processing"; "awaiting_shipment"; "paid"]
     && str_in current_status ["pending"; "confirmed"]
  then
    try_except
      (default_currency <~ (fun w => (Ok (settings_DEFAULT_CURRENCY w), w)) ;;
       let income_trx := sale_income_trx order default_currency in
       created_trx <~ record_transaction income_trx ;;
       order_add_transaction_id (order_db_id order) created_trx ;;;
       ret tt)
      (fun _ => ret tt)
  else ret tt.

(** Step 3: on delivery the serialized units are marked as sold; any
    exception is logged and swallowed. *)
Definition mark_sold_on_delivery (order : OrderInDB) (new_status : string) : M unit :=
  if String.eqb new_status "delivered" then
    try_except
      (mark_items_as_sold (order_db_id order) (prod_quantities (order_items order)))
      (fun _ => ret tt)
  else ret tt.

(** The last step: the status is written to the order document. *)
Definition write_status (order_id : ObjectId) (order : OrderInDB) (new_status : string)
    (notes : option string) : M (option OrderInDB) :=
  try_except
    (now <~ utcnow ;;
     let update_payload :=
       {| upd_status := new_status;
          upd_actual_delivery_date :=
            if String.eqb new_status "delivered"
               && negb (is_some (order_actual_delivery_date order))
            then Some now else None;
          upd_notes := notes |} in
     updated_db <~ order_update order_id update_payload ;;
     match updated_db with
     | None => raise (HTTPException 500 "Failed to finalize order status update.")
     | Some updated => ret (Some updated)
     end)
    (fun e =>
       match e with
       | ValueError _ | RuntimeError _ =>
           raise (HTTPException 500
                    ("Database error updating order status: " +:+ exn_message e))
       | _ => raise e
       end).

(** [OrderService.update_order_status(order_id_str, new_status, notes, ...)]. *)
Definition update_order_status (order_id_str : string) (new_status : string)
    (notes : option string) : M (option OrderInDB) :=
  match _to_objectid order_id_str with
  | None => raise (HTTPException 400 "Invalid Order ID format")
  | Some order_id =>
      order <~ order_get_by_id order_id ;;
      match order with
      | None => ret None
      | Some order =>
          let current_status := order_status order in
          if String.eqb new_status current_status then ret (Some order)
          else if negb (str_in new_status (valid_transitions current_status)) then
            raise (HTTPException 400
                     ("Invalid status transition from '" +:+ current_status +:+
                      "' to '" +:+ new_status +:+ "'."))
          else
            process_reservation order new_status ;;;
            register_transaction order new_status ;;;
            mark_sold_on_delivery order new_status ;;;
            write_status order_id order new_status notes
      end
  end.

(** ** [ProductRepository.update] *)

(** The fields the general update never sets. *)
Definition protected_fields : list string :=
  ["_id"; "id"; "created_at"; "price_history"; "reserved_stock"].

(** [current_doc.prices] *)
Definition doc_prices (d : gmap string value) : list (string * string) :=
  match d !! "prices" with
  | Some (VPrices p) => p
  | _ => []
  end.

Definition doc_price_history (d : gmap string value) : list PriceHistoryEntry :=
  match d !! "price_history" with
  | Some (VHistory h) => h
  | _ => []
  end.

Definition prices_eq_dec (p q : list (string * string)) : {p = q} + {p ≠ q}.
Proof. solve_decision. Defined.

Section ProductUpdate.

(** [ProductPrices.model_validate] belongs to the absent sales/models.py:
    it answers with the validated prices, or fails. *)
Variable model_validate_prices : value → option (list (string * string)).

(** [BaseRepository._prepare_data_for_db] belongs to the absent
    app/core/repository.py. *)
Variable base_prepare_data_for_db : gmap string value → gmap string value.

(** [ProductRepository._prepare_data_for_db]: after the base class, it
    renders the decimals inside ["prices"] and inside the entries of
    ["price_history"] as strings, which is how [VPrices] and
    [PriceHistoryEntry] carry them already. *)
Definition _prepare_data_for_db (data : gmap string value) : gmap string value :=
  base_prepare_data_for_db data.

(** [dict.pop(key, default)] read as a string. *)
Definition pop_str (key : string) (default : string) (data : gmap string value) : string :=
  match data !! key with
  | Some (VStr s) => s
  | _ => default
  end.

(** [ProductRepository.update(id, data_in)] with a dict payload. *)
Definition update (id : string) (data_in : gmap string value) : M (option (gmap string value)) :=
  match _to_objectid id with
  | None => ret None
  | Some obj_id =>
      current_doc <~ (fun w => (Ok (products w !! obj_id), w)) ;;
      match current_doc with
      | None => ret None
      | Some current_doc =>
          let update_data_dict := data_in in
          let price_update_reason := pop_str "price_update_reason" "Update via API" update_data_dict in
          let update_data_dict := delete "price_update_reason" update_data_dict in
          let user_id_updater :=
            match update_data_dict !! "user_id" with
            | Some (VStr u) => Some u
            | _ => None
            end in
          let update_data_dict := delete "user_id" update_data_dict in
          let new_prices_data :=
            match update_data_dict !! "prices" with
            | Some VNone | None => None
            | Some v => Some v
            end in
          let update_data_dict := delete "prices" update_data_dict in
          (* the ["prices"] part of [$set], and the entry to [$push] *)
          price_part <~
            match new_prices_data with
            | None => ret (∅, None)
            | Some v =>
                match model_validate_prices v with
                | None => raise (ValueError "Invalid 'prices' data provided")
                | Some new_prices =>
                    if prices_eq_dec new_prices (doc_prices current_doc)
                    then ret (∅, None)
                    else ret ({[ "prices" := VPrices new_prices ]},
                              Some {| ph_user_id := user_id_updater;
                                      ph_reason := price_update_reason;
                                      ph_prices := new_prices |})
                end
            end ;;
          let push_payload : option PriceHistoryEntry := price_part.2 in
          let other_updates_prepared := _prepare_data_for_db update_data_dict in
          let update_payload : gmap string value :=
            filter (fun kv => kv.1 ∉ protected_fields) other_updates_prepared ∪ price_part.1 in
          if bool_decide (update_payload = ∅) && negb (is_some push_payload)
          then ret (Some current_doc)
          else
            now <~ utcnow ;;
            let update_payload := <["updated_at" := VDate now]> update_payload in
            (* [update_one({"_id": obj_id}, {"$set": ..., "$push": ...})] *)
            try_except
              (fun w =>
                 match product_faults w with
                 | Some e :: _ => (Raise e, set_product_faults (@tail _) w)
                 | _ =>
                     let w1 := set_product_faults (@tail _) w in
                     match products w !! obj_id with
                     | None => (Ok None, w1)
                     | Some d =>
                         let d1 := update_payload ∪ d in
                         let d2 :=
                           match push_payload with
                           | Some entry =>
                               <["price_history" :=
                                   VHistory (firstn 50 (entry :: doc_price_history d1))]> d1
                           | None => d1
                           end in
                         (Ok (Some d2), set_products (insert obj_id d2) w1)
                     end
                 end)
              (fun e =>
                 _handle_db_exception e "update" obj_id ;;;
                 raise e)
      end
  end.

End ProductUpdate.

(** ** [OrderService._select_price_tier] *)

(** [profile_to_sale_tiers.get(customer_profile_type)] *)
Definition profile_to_sale_tiers (profile : string) : option (list string) :=
  if String.eqb profile "vip" then Some ["sale_a"; "sale_b"]
  else if String.eqb profile "reseller" then Some ["resale_a"; "resale_b"]
  else if String.eqb profile "regular" then Some ["sale_c"; "sale_b"; "sale_a"]
  else None.

(** [channel_to_sale_tiers.get(channel)] *)
Definition channel_to_sale_tiers (channel : string) : option (list string) :=
  if String.eqb channel "whatsapp" then Some ["sale_b"; "sale_a"]
  else if String.eqb channel "ui" then Some ["sale_a"]
  else None.

Definition default_tier_order : list string :=
  ["sale_a"; "sale_b"; "sale_c"; "resale_a"; "resale_b"; "resale_c"].

(** The loop over [tiers_to_try]: the first tier whose price is not [None]. *)
Fixpoint first_priced {P} (prices : gmap string P) (tiers : list string) : option (string * P) :=
  match tiers with
  | [] => None
  | tier :: tiers' =>
      match prices !! tier with
      | Some price => Some (tier, price)
      | None => first_priced prices tiers'
      end
  end.

(** [OrderService._select_price_tier(product, customer_profile_type,
    channel)], on [product.prices]: a price that is absent and a price that
    is [None] read the same through [getattr(prices, tier, None)], so the
    prices are a finite map from the tiers that have one.  The function does
    not look into the prices, whatever their type [P]. *)
Definition _select_price_tier {P} (prices : gmap string P)
    (customer_profile_type channel : option string) : string * option P :=
  let tiers_to_try : list string := [] in
  let tiers_to_try :=
    match channel with
    | Some c =>
        match channel_to_sale_tiers c with
        | Some tiers => tiers_to_try ++ tiers
        | None => tiers_to_try
        end
    | None => tiers_to_try
    end in
  let tiers_to_try :=
    match customer_profile_type with
    | Some p =>
        match profile_to_sale_tiers p with
        | Some tiers => tiers_to_try ++ tiers
        | None => tiers_to_try
        end
    | None => tiers_to_try
    end in
  let tiers_to_try := tiers_to_try ++ default_tier_order in
  match first_priced prices tiers_to_try with
  | Some (tier, price) => (tier, Some price)
  | None => ("default", None)
  end.

(** ** Vocabulary of the properties *)

(** [d] is a product document whose ledger fields are the integers [s]
    (physical) and [r] (reserved). *)
Definition ledger (d : gmap string value) (s r : Z) : Prop :=
  stock_quantity d = Some s ∧ reserved_stock d = Some r.

(** The next call to the products collection does not fail. *)
Definition healthy (w : World) : Prop :=
  match product_faults w with
  | Some _ :: _ => False
  | _ => True
  end.

(** No call to the products collection fails from now on. *)
Definition fault_free (w : World) : Prop :=
  Forall (fun f => f = None) (product_faults w).

(** What [_handle_db_exception] turns a driver error into. *)
Definition handled (e : Exn) : Exn :=
  match e with
  | DuplicateKeyError m => ValueError m
  | _ => RuntimeError (exn_message e)
  end.

(** The guard of [stock_query_and_update] read on the two ledger fields. *)
Definition guard_holds (qc : Z) (isres : bool) (s r : Z) : bool :=
  if isres then
    (if 0 <? qc then qc <=? s else true) && (if qc <? 0 then Z.abs qc <=? r else true)
  else if qc <? 0 then (Z.abs qc <=? s) && (Z.abs qc <=? r) else true.

(** The document a matched [update_stock_atomic] leaves behind. *)
Definition ledger_doc (now qc : Z) (isres : bool) (d : gmap string value) (s r : Z) : gmap string value :=
  let d0 := <["updated_at" := VDate now]> d in
  if isres then <["reserved_stock" := VInt (r + qc)]> d0
  else if qc <? 0
       then <["reserved_stock" := VInt (r + qc)]> (<["stock_quantity" := VInt (s + qc)]> d0)
       else <["stock_quantity" := VInt (s + qc)]> d0.

(** A run of reserve attempts against one product, in the order the store
    serializes them, with the outcome of each. *)
Fixpoint reserve_attempts (pid : ObjectId) (qs : list Z) : M (list bool) :=
  match qs with
  | [] => ret []
  | q :: qs' =>
      b <~ reserve pid q ;;
      bs <~ reserve_attempts pid qs' ;;
      ret (b :: bs)
  end.

(** The sum of the quantities whose attempt succeeded. *)
Fixpoint reserved_total (qs : list Z) (bs : list bool) : Z :=
  match qs, bs with
  | q :: qs', b :: bs' => (if b then q else 0) + reserved_total qs' bs'
  | _, _ => 0
  end.

(** The four ledger operations, as requests. *)
Inductive LedgerOp :=
| OpReserve (pid : ObjectId) (q : Z)
| OpRelease (pid : ObjectId) (q : Z)
| OpConfirm (pid : ObjectId) (q : Z)
| OpRestock (pid : ObjectId) (q : Z).

Definition run_op (op : LedgerOp) : M bool :=
  match op with
  | OpReserve pid q => reserve pid q
  | OpRelease pid q => release pid q
  | OpConfirm pid q => confirm pid q
  | OpRestock pid q => restock pid q
  end.

(** The world after a sequence of ledger requests, whatever each answered. *)
Fixpoint run_ops (ops : list LedgerOp) (w : World) : World :=
  match ops with
  | [] => w
  | op :: ops' => run_ops ops' (run_op op w).2
  end.

Definition op_quantity (op : LedgerOp) : Z :=
  match op with
  | OpReserve _ q | OpRelease _ q | OpConfirm _ q | OpRestock _ q => q
  end.

Definition is_reserve (op : LedgerOp) : bool :=
  match op with
  | OpReserve _ _ => true
  | _ => false
  end.

(** Every product carries integer ledger fields with
    [0 ≤ reserved_stock ≤ stock_quantity]. *)
Definition ledger_invariant (w : World) : Prop :=
  ∀ pid d, products w !! pid = Some d → ∃ s r, ledger d s r ∧ 0 ≤ r ∧ r ≤ s.

(** Every product carries non-negative integer ledger fields. *)
Definition ledger_nonneg (w : World) : Prop :=
  ∀ pid d, products w !! pid = Some d → ∃ s r, ledger d s r ∧ 0 ≤ r ∧ 0 ≤ s.

(** The order statuses of section 4.3, and the strings that carry them. *)
Inductive OrderStatus :=
| Pending | Confirmed | Processing | AwaitingShipment | Shipped
| Delivered | Cancelled | Failed | Returned.

Definition status_name (s : OrderStatus) : string :=
  match s with
  | Pending => "pending"
  | Confirmed => "confirmed"
  | Processing => "processing"
  | AwaitingShipment => "awaiting_shipment"
  | Shipped => "shipped"
  | Delivered => "delivered"
  | Cancelled => "cancelled"
  | Failed => "failed"
  | Returned => "returned"
  end.

(** The transition table as the specification lists it. *)
Definition spec_transition_table (from : OrderStatus) : list OrderStatus :=
  match from with
  | Pending => [Confirmed; Processing; Cancelled; Failed]
  | Confirmed => [Processing; AwaitingShipment; Cancelled; Failed]
  | Processing => [AwaitingShipment; Shipped; Cancelled; Failed]
  | AwaitingShipment => [Shipped; Cancelled; Failed]
  | Shipped => [Delivered; Returned; Failed]
  | Delivered => [Returned]
  | Cancelled | Failed | Returned => []
  end.

(** How many transaction record requests a trace holds. *)
Fixpoint count_record_transaction (t : list Event) : nat :=
  match t with
  | [] => 0%nat
  | EvRecordTransaction _ :: t' => S (count_record_transaction t')
  | _ :: t' => count_record_transaction t'
  end.

(** [except ReservationError] catches [e]. *)
Definition is_reservation_error (e : Exn) : bool :=
  match e with
  | ReservationError _ => true
  | _ => false
  end.

(** Whether [update_order_status] goes on after the reservation step
    answered [r]: it does unless the step raised something other than a
    [ReservationError]. *)
Definition transition_proceeds (r : Res unit) : bool :=
  match r with
  | Ok _ => true
  | Raise e => is_reservation_error e
  end.

(** [w'] differs from [w] at most on the stock side: the products, the
    script of their collection, and the reservation records. *)
Definition same_outside_stock (w w' : World) : Prop :=
  orders w' = orders w ∧ order_faults w' = order_faults w
  ∧ fresh_ids w' = fresh_ids w ∧ banking w' = banking w
  ∧ stock_service w' = stock_service w ∧ trace w' = trace w
  ∧ clock w' = clock w
  ∧ settings_DEFAULT_CURRENCY w' = settings_DEFAULT_CURRENCY w.

(** The records a reservation holds, and the quantity it holds of one
    product. *)
Definition records_of (reservation_id : string)
    (rs : list (string * string * Z)) : list (string * string * Z) :=
  List.filter (fun r => String.eqb r.1.1 reservation_id) rs.

Fixpoint held (reservation_id : string) (pid : string)
    (rs : list (string * string * Z)) : Z :=
  match rs with
  | [] => 0
  | r :: rs' =>
      (if String.eqb r.1.1 reservation_id && String.eqb r.1.2 pid then r.2 else 0)
      + held reservation_id pid rs'
  end.

(** [w] is [w0] with the reservation [ref] on top: the same products, each
    with the physical quantity it had and with what the reservation holds of
    it added to the reserved quantity it had; and whatever the reservation
    holds is a non-negative quantity of a product that exists. *)
Definition balanced (ref : string) (w0 w : World) : Prop :=
  (∀ pid d0, products w0 !! pid = Some d0 →
     ∃ d s r0, products w !! pid = Some d ∧ ledger d0 s r0 ∧ 0 ≤ r0
               ∧ ledger d s (r0 + held ref pid (reservations w)))
  ∧ (∀ pid, products w0 !! pid = None → products w !! pid = None)
  ∧ Forall (fun r => r.1.1 = ref → 0 ≤ r.2 ∧ is_Some (products w0 !! r.1.2))
           (reservations w).

(** Every product of [w0] has in [w] the ledger fields it has in [w0]. *)
Definition same_ledger (w0 w : World) : Prop :=
  ∀ pid d0, products w0 !! pid = Some d0 →
    ∃ d, products w !! pid = Some d
         ∧ reserved_stock d = reserved_stock d0
         ∧ stock_quantity d = stock_quantity d0.

(** Evaluate a closed test inside a goal. *)
Ltac eval_test t := let v := eval vm_compute in t in change t with v.

(** ** Fixtures *)

Definition pid1 : string := "64b7f0c2a1d3e4f5a6b7c8d9".
Definition pid2 : string := "64b7f0c2a1d3e4f5a6b7c8da".

(** A store holding one product. *)
Definition shelf (stock reserved : Z) : World :=
  set_products (insert pid1 (product_doc stock reserved)) empty_world.

Definition oid1 : string := "650000000000000000000001".
Definition customer1 : string := "650000000000000000000002".
Definition trx1 : string := "650000000000000000000003".

(** An order of two units of [pid1], reference ORD-000123. *)
Definition order1 (status : string) : OrderInDB :=
  {| order_db_id := oid1;
     order_customer_id := customer1;
     order_ref := "ORD-000123";
     order_items :=
       [ {| item_product_id := pid1; item_quantity := 2;
            item_product_name := "widget"; item_price_at_purchase := 2500;
            item_selected_price_tier := "sale_a";
            item_margin_at_purchase := None |} ];
     order_total_amount := 5000;
     order_status := status;
     order_channel := None;
     order_transaction_ids := [];
     order_actual_delivery_date := None;
     order_notes := None;
     order_currency := None |}.

(** A store holding [order1] in the given status, its product with ten
    units of which the order's two are reserved, and a banking service that
    is ready to answer. *)
Definition order_world (status : string) : World :=
  {| products := {[ pid1 := product_doc 10 2 ]};
     product_faults := [];
     reservations := [("ORD-000123", pid1, 2)];
     orders := {[ oid1 := order1 status ]};
     order_faults := [];
     fresh_ids := [];
     banking := [Ok trx1];
     stock_service := [];
     trace := [];
     clock := 0;
     settings_DEFAULT_CURRENCY := "BRL" |}.

(** The order of Scenario B: two units of [pid1] and three of [pid2]. *)
Definition order_data1 : OrderCreateInternal :=
  {| oc_customer_id := customer1;
     oc_order_ref := "ORD-000124";
     oc_items :=
       [ {| item_product_id := pid1; item_quantity := 2;
            item_product_name := "widget"; item_price_at_purchase := 2500;
            item_selected_price_tier := "sale_a";
            item_margin_at_purchase := None |};
         {| item_product_id := pid2; item_quantity := 3;
            item_product_name := "gadget"; item_price_at_purchase := 1000;
            item_selected_price_tier := "sale_a";
            item_margin_at_purchase := None |} ];
     oc_total_amount := 8000;
     oc_status := "pending";
     oc_channel := None |}.

(** A store with five available units of [pid1] and [avail2] of [pid2], no
    order yet, and the given infrastructure scripts. *)
Definition two_products (avail2 : Z) (faults : list (option Exn))
    (ofaults : list (option RepoError)) : World :=
  {| products := {[ pid1 := product_doc 5 0; pid2 := product_doc avail2 0 ]};
     product_faults := faults;
     reservations := [];
     orders := ∅;
     order_faults := ofaults;
     fresh_ids := [oid1];
     banking := [];
     stock_service := [];
     trace := [];
     clock := 0;
     settings_DEFAULT_CURRENCY := "BRL" |}.

(** ** Vocabulary of the further properties *)

(** The payload of [ProductRepository.update] once the three keys it pops
    ([price_update_reason], [user_id], [prices]) are gone. *)
Definition popped (data : gmap string value) : gmap string value :=
  delete "prices" (delete "user_id" (delete "price_update_reason" data)).

(** How far along the lifecycle a status is. *)
Definition status_rank (s : string) : nat :=
  if String.eqb s "pending" then 0
  else if String.eqb s "confirmed" then 1
  else if String.eqb s "processing" then 2
  else if String.eqb s "awaiting_shipment" then 3
  else if String.eqb s "shipped" then 4
  else if String.eqb s "delivered" then 5
  else 6.

(** [chain] is a sequence of statuses in which every step is a transition
    that [valid_transitions] allows. *)
Fixpoint legal_chain (chain : list string) : bool :=
  match chain with
  | s :: ((s' :: _) as rest) => str_in s' (valid_transitions s) && legal_chain rest
  | _ => true
  end.

(** The test under which [register_transaction] requests a transaction for
    the step from [current_status] to [new_status]. *)
Definition requests_transaction (current_status new_status : string) : bool :=
  str_in new_status ["processing"; "awaiting_shipment"; "paid"]
  && str_in current_status ["pending"; "confirmed"].

(** How many steps of a chain request a transaction. *)
Fixpoint transaction_requests (chain : list string) : nat :=
  match chain with
  | s :: ((s' :: _) as rest) =>
      ((if requests_transaction s s' then 1 else 0) + transaction_requests rest)%nat
  | _ => 0%nat
  end.

(** A validator that accepts prices already in their stored form and
    refuses everything else. *)
Definition accept_stored_prices (v : value) : option (list (string * string)) :=
  match v with
  | VPrices p => Some p
  | _ => None
  end.

(** * Properties *)

(** ** The ledger primitive *)

Section Ledger.

Implicit Types (w : World) (d : gmap string value) (pid : string).

Lemma doc_int_lookup d k n : doc_int d k = Some n ↔ d !! k = Some (VInt n).
Proof.
  unfold doc_int. destruct (d !! k) as [[]|]; split; intros H; try discriminate; congruence.
Qed.

Lemma matches_guard now pid qc isres d s r :
  ledger d s r →
  matches (stock_query_and_update now pid qc isres).1 d = guard_holds qc isres s r.
Proof.
  intros [Hs Hr]. unfold stock_quantity, reserved_stock in *.
  unfold stock_query_and_update, guard_holds, matches.
  destruct isres; destruct (0 <? qc) eqn:E1; destruct (qc <? 0) eqn:E2;
    simpl; unfold field_gte; simpl; rewrite ?Hs, ?Hr;
    rewrite ?andb_true_r; try reflexivity; try lia.
  all: try apply andb_comm.
Qed.

Lemma query_id now pid qc isres : q_id (stock_query_and_update now pid qc isres).1 = pid.
Proof.
  unfold stock_query_and_update.
  destruct isres; destruct (0 <? qc); destruct (qc <? 0); reflexivity.
Qed.

Lemma apply_update_ledger now pid qc isres d s r :
  ledger d s r →
  apply_update (stock_query_and_update now pid qc isres).2 d
  = Some (ledger_doc now qc isres d s r).
Proof.
  intros [Hs Hr]. apply doc_int_lookup in Hs, Hr.
  unfold stock_query_and_update, ledger_doc, apply_update.
  destruct isres; [|destruct (qc <? 0)]; simpl; unfold doc_set, doc_inc; simpl.
  - rewrite lookup_insert_ne by done. rewrite Hr. reflexivity.
  - rewrite lookup_insert_ne by done. rewrite Hs.
    rewrite lookup_insert_ne by done. rewrite lookup_insert_ne by done.
    rewrite Hr. reflexivity.
  - rewrite lookup_insert_ne by done. rewrite Hs. reflexivity.
Qed.

(** A failing driver call surfaces as the handler's error; nothing is
    written. *)
Lemma usa_fault pid qc isres w e rest :
  product_faults w = Some e :: rest →
  update_stock_atomic pid qc isres w = (Raise (handled e), set_product_faults (@tail _) w).
Proof.
  intros H. unfold update_stock_atomic, bind, utcnow, try_except, find_one_and_update.
  rewrite H. destruct e; reflexivity.
Qed.

Lemma usa_absent pid qc isres w :
  healthy w → products w !! pid = None →
  update_stock_atomic pid qc isres w = (Ok false, set_product_faults (@tail _) w).
Proof.
  intros Hh Hn. unfold update_stock_atomic, bind, utcnow, try_except, find_one_and_update.
  rewrite query_id, Hn. unfold healthy in Hh.
  destruct (product_faults w) as [|[e|] l]; try contradiction; reflexivity.
Qed.

Lemma usa_healthy pid qc isres w d s r :
  healthy w → products w !! pid = Some d → ledger d s r →
  update_stock_atomic pid qc isres w =
    if guard_holds qc isres s r
    then (Ok true, set_products (insert pid (ledger_doc (clock w) qc isres d s r))
                     (set_product_faults (@tail _) w))
    else (Ok false, set_product_faults (@tail _) w).
Proof.
  intros Hh Hd Hl. unfold update_stock_atomic, bind, utcnow, try_except, find_one_and_update.
  rewrite query_id, Hd, (matches_guard _ _ _ _ _ _ _ Hl).
  rewrite (apply_update_ledger _ _ _ _ _ _ _ Hl).
  unfold healthy in Hh.
  destruct (product_faults w) as [|[e|] l]; try contradiction;
    destruct (guard_holds qc isres s r); reflexivity.
Qed.

Lemma healthy_or_fault w :
  healthy w ∨ ∃ e rest, product_faults w = Some e :: rest.
Proof.
  unfold healthy. destruct (product_faults w) as [|[e|] l]; eauto.
Qed.

Lemma ledger_doc_ledger now qc isres d s r :
  ledger d s r →
  ledger (ledger_doc now qc isres d s r)
         (if isres then s else s + qc)
         (if isres then r + qc else if qc <? 0 then r + qc else r).
Proof.
  intros [Hs Hr]. apply doc_int_lookup in Hs, Hr.
  unfold ledger, ledger_doc, stock_quantity, reserved_stock.
  rewrite !doc_int_lookup.
  destruct isres; [|destruct (qc <? 0)]; split;
    repeat (rewrite lookup_insert_eq || rewrite lookup_insert_ne by done); done.
Qed.

End Ledger.

(** ** Claims about the ledger *)

Section LedgerClaims.

Implicit Types (w : World) (d : gmap string value) (pid : string).

Lemma available_of_ledger d s r : ledger d s r → available_stock d = Some (s - r).
Proof. intros [Hs Hr]. unfold available_stock. by rewrite Hs, Hr. Qed.

Lemma ledger_inj d s r s' r' : ledger d s r → ledger d s' r' → s = s' ∧ r = r'.
Proof. intros [H1 H2] [H3 H4]. split; congruence. Qed.

(** The products a ledger call leaves behind: untouched, or the one
    document rewritten under a guard that held. *)
Lemma usa_products pid qc isres w :
  (∀ d, products w !! pid = Some d → ∃ s r, ledger d s r) →
  products (update_stock_atomic pid qc isres w).2 = products w
  ∨ ∃ d s r, products w !! pid = Some d ∧ ledger d s r
             ∧ guard_holds qc isres s r = true
             ∧ products (update_stock_atomic pid qc isres w).2
               = <[pid := ledger_doc (clock w) qc isres d s r]> (products w).
Proof.
  intros Hwf. destruct (healthy_or_fault w) as [Hh | (e & rest & Hf)].
  - destruct (products w !! pid) as [d|] eqn:Hd.
    + destruct (Hwf d eq_refl) as (s & r & Hl).
      rewrite (usa_healthy _ _ _ _ _ _ _ Hh Hd Hl).
      destruct (guard_holds qc isres s r) eqn:Hg; [right | left; reflexivity].
      exists d, s, r. repeat split; try assumption; apply Hl.
    + rewrite (usa_absent _ _ _ _ Hh Hd). by left.
  - rewrite (usa_fault _ _ _ _ _ _ Hf). by left.
Qed.

Lemma fault_free_healthy w : fault_free w → healthy w.
Proof.
  unfold fault_free, healthy. destruct (product_faults w) as [|[e|] l]; try done.
  intros H. inversion H; discriminate.
Qed.

Lemma fault_free_tail w f :
  fault_free w → fault_free (set_products f (set_product_faults (@tail _) w)).
Proof.
  unfold fault_free. simpl. destruct (product_faults w); simpl; [done|].
  intros H. by inversion H.
Qed.

Lemma fault_free_tail' w :
  fault_free w → fault_free (set_product_faults (@tail _) w).
Proof.
  unfold fault_free. simpl. destruct (product_faults w); simpl; [done|].
  intros H. by inversion H.
Qed.

(** C6.  A confirm of [q > 0] units on a product whose ledger reads
    [(s, r)] answers [True] only under the guard [q ≤ s] and [q ≤ r]; it
    then leaves [stock_quantity = s - q] and [reserved_stock = r - q], so
    [available_stock] is what it was.  On a healthy store the guard is
    also sufficient for it to succeed. *)
Theorem confirm_reduces_stock_and_reserved pid q w d s r :
  0 < q → products w !! pid = Some d → ledger d s r →
  (∀ w', confirm pid q w = (Ok true, w') →
     q ≤ s ∧ q ≤ r ∧
     ∃ d', products w' !! pid = Some d' ∧ ledger d' (s - q) (r - q)
           ∧ available_stock d' = available_stock d)
  ∧ (healthy w → q ≤ s → q ≤ r → ∃ w', confirm pid q w = (Ok true, w')).
Proof.
  intros Hq Hd Hl. unfold confirm. split.
  - intros w' Hrun. destruct (healthy_or_fault w) as [Hh | (e & rest & Hf)].
    + rewrite (usa_healthy _ _ _ _ _ _ _ Hh Hd Hl) in Hrun.
      unfold guard_holds in Hrun.
      replace (- q <? 0) with true in Hrun by (symmetry; apply Z.ltb_lt; lia).
      destruct (Z.abs (- q) <=? s) eqn:E1; destruct (Z.abs (- q) <=? r) eqn:E2;
        simpl in Hrun; try discriminate.
      apply Z.leb_le in E1, E2. injection Hrun as <-.
      split; [lia|]. split; [lia|].
      eexists. split; [apply lookup_insert_eq|].
      pose proof (ledger_doc_ledger (clock w) (- q) false d s r Hl) as Hl'.
      replace (- q <? 0) with true in Hl' by (symmetry; apply Z.ltb_lt; lia).
      simpl in Hl'. split; [exact Hl'|].
      rewrite (available_of_ledger _ _ _ Hl'), (available_of_ledger _ _ _ Hl).
      f_equal. lia.
    + rewrite (usa_fault _ _ _ _ _ _ Hf) in Hrun. discriminate.
  - intros Hh H1 H2. rewrite (usa_healthy _ _ _ _ _ _ _ Hh Hd Hl).
    unfold guard_holds.
    replace (- q <? 0) with true by (symmetry; apply Z.ltb_lt; lia).
    replace (Z.abs (- q) <=? s) with true by (symmetry; apply Z.leb_le; lia).
    replace (Z.abs (- q) <=? r) with true by (symmetry; apply Z.leb_le; lia).
    simpl. eauto.
Qed.

(** C9.  [update_stock_atomic] answers with a boolean and does not raise
    when the store is healthy: [False] for an absent product and for an
    unmet guard, in both cases with nothing written (only the store's call
    has been consumed), [True] exactly when the guard holds.  A failing
    store call is not folded into [False]: it reaches the caller as a
    raised error. *)
Theorem update_stock_atomic_outcomes pid qc isres w :
  (healthy w → products w !! pid = None →
     update_stock_atomic pid qc isres w = (Ok false, set_product_faults (@tail _) w))
  ∧ (∀ d s r, healthy w → products w !! pid = Some d → ledger d s r →
       ∃ b w', update_stock_atomic pid qc isres w = (Ok b, w')
               ∧ b = guard_holds qc isres s r
               ∧ (b = false → w' = set_product_faults (@tail _) w))
  ∧ (∀ e rest, product_faults w = Some e :: rest →
       ∃ e', update_stock_atomic pid qc isres w = (Raise e', set_product_faults (@tail _) w)).
Proof.
  split; [|split].
  - apply usa_absent.
  - intros d s r Hh Hd Hl. rewrite (usa_healthy _ _ _ _ _ _ _ Hh Hd Hl).
    destruct (guard_holds qc isres s r); eexists _, _; (split; [reflexivity|]); split;
      try reflexivity; intros; try discriminate; reflexivity.
  - intros e rest Hf. exists (handled e). by apply (usa_fault _ _ _ _ e rest).
Qed.

(** C1, as the code has it.  The guard of a reserve attempt of [q > 0]
    units is [stock_quantity ≥ q]: [reserved_stock] is not consulted.  So
    in any run of reserve attempts against a product whose ledger reads
    [(s, r)], on a store without faults, exactly the attempts with [q ≤ s]
    succeed, each adds its quantity to [reserved_stock], and
    [stock_quantity] stays [s]. *)
Theorem reserve_guard_is_physical_stock pid qs : ∀ w d s r,
  fault_free w → products w !! pid = Some d → ledger d s r →
  Forall (fun q => 0 < q) qs →
  ∃ w' d', reserve_attempts pid qs w = (Ok (map (fun q => q <=? s) qs), w')
           ∧ products w' !! pid = Some d'
           ∧ ledger d' s (r + reserved_total qs (map (fun q => q <=? s) qs)).
Proof.
  induction qs as [|q qs IH]; intros w d s r Hff Hd Hl Hqs.
  - exists w, d. simpl. rewrite Z.add_0_r. done.
  - inversion Hqs as [|? ? Hq Hqs']; subst.
    simpl. unfold bind, reserve.
    rewrite (usa_healthy _ _ _ _ _ _ _ (fault_free_healthy _ Hff) Hd Hl).
    unfold guard_holds.
    replace (0 <? q) with true by (symmetry; apply Z.ltb_lt; lia).
    replace (q <? 0) with false by (symmetry; apply Z.ltb_ge; lia).
    rewrite andb_true_r.
    destruct (q <=? s) eqn:E.
    + edestruct (IH _ _ s (r + q) (fault_free_tail w _ Hff)
                   (lookup_insert_eq _ _ _)
                   (ledger_doc_ledger (clock w) q true d s r Hl) Hqs')
        as (w' & d' & Hrun & Hd' & Hl'').
      rewrite Hrun. exists w', d'. split; [reflexivity|]. split; [assumption|].
      replace (r + (q + reserved_total qs (map (fun q => q <=? s) qs)))
        with (r + q + reserved_total qs (map (fun q => q <=? s) qs)) by lia.
      exact Hl''.
    + destruct (IH _ _ s r (fault_free_tail' w Hff) Hd Hl Hqs') as (w' & d' & Hrun & Hd' & Hl'').
      rewrite Hrun. exists w', d'. split; [reflexivity|]. split; [assumption|].
      simpl. exact Hl''.
Qed.

Lemma run_op_products op w :
  (∀ pid d, products w !! pid = Some d → ∃ s r, ledger d s r) →
  products (run_op op w).2 = products w
  ∨ ∃ pid qc isres d s r,
      products w !! pid = Some d ∧ ledger d s r
      ∧ guard_holds qc isres s r = true
      ∧ (  (op = OpReserve pid qc ∧ isres = true)
         ∨ (op = OpRelease pid (- qc) ∧ isres = true)
         ∨ (op = OpConfirm pid (- qc) ∧ isres = false)
         ∨ (op = OpRestock pid qc ∧ isres = false))
      ∧ products (run_op op w).2 = <[pid := ledger_doc (clock w) qc isres d s r]> (products w).
Proof.
  intros Hwf.
  destruct op as [pid q|pid q|pid q|pid q]; simpl;
    unfold reserve, release, confirm, restock.
  - destruct (usa_products pid q true w (Hwf pid)) as [H|(d & s & r & Hd & Hl & Hg & H)];
      [by left|right].
    exists pid, q, true, d, s, r. repeat split; try assumption; try apply Hl. by left.
  - destruct (usa_products pid (- q) true w (Hwf pid)) as [H|(d & s & r & Hd & Hl & Hg & H)];
      [by left|right].
    exists pid, (- q), true, d, s, r. repeat split; try assumption; try apply Hl.
    right; left. by rewrite Z.opp_involutive.
  - destruct (usa_products pid (- q) false w (Hwf pid)) as [H|(d & s & r & Hd & Hl & Hg & H)];
      [by left|right].
    exists pid, (- q), false, d, s, r. repeat split; try assumption; try apply Hl.
    right; right; left. by rewrite Z.opp_involutive.
  - destruct (usa_products pid q false w (Hwf pid)) as [H|(d & s & r & Hd & Hl & Hg & H)];
      [by left|right].
    exists pid, q, false, d, s, r. repeat split; try assumption; try apply Hl.
    by right; right; right.
Qed.

Lemma ledger_nonneg_step op w :
  0 ≤ op_quantity op → ledger_nonneg w → ledger_nonneg (run_op op w).2.
Proof.
  intros Hq Hinv.
  destruct (run_op_products op w) as [H|(pid & qc & isres & d & s & r & Hd & Hl & Hg & Hop & H)].
  { intros pid d Hd. destruct (Hinv pid d Hd) as (s & r & ? & ?). eauto. }
  { unfold ledger_nonneg. by rewrite H. }
  intros pid' d' Hd'. rewrite H in Hd'.
  destruct (decide (pid = pid')) as [<-|Hne].
  - rewrite lookup_insert_eq in Hd'. injection Hd' as <-.
    destruct (Hinv pid d Hd) as (s0 & r0 & Hl0 & Hr0 & Hs0).
    destruct (ledger_inj _ _ _ _ _ Hl Hl0) as [<- <-]. clear Hl0.
    pose proof (ledger_doc_ledger (clock w) qc isres d s r Hl) as Hl'.
    eexists _, _. split; [exact Hl'|].
    unfold guard_holds in Hg.
    destruct Hop as [[-> ->]|[[-> ->]|[[-> ->]|[-> ->]]]]; simpl in *.
    + lia.
    + destruct (0 <? qc) eqn:E1; destruct (qc <? 0) eqn:E2; simpl in Hg; lia.
    + destruct (qc <? 0) eqn:E2; [|lia].
      apply andb_true_iff in Hg as [G1 G2]. lia.
    + destruct (qc <? 0) eqn:E2; lia.
  - rewrite lookup_insert_ne in Hd' by done. eauto.
Qed.

Lemma ledger_invariant_step op w :
  0 ≤ op_quantity op → is_reserve op = false →
  ledger_invariant w → ledger_invariant (run_op op w).2.
Proof.
  intros Hq Hnr Hinv.
  destruct (run_op_products op w) as [H|(pid & qc & isres & d & s & r & Hd & Hl & Hg & Hop & H)].
  { intros pid d Hd. destruct (Hinv pid d Hd) as (s & r & ? & ?). eauto. }
  { unfold ledger_invariant. by rewrite H. }
  intros pid' d' Hd'. rewrite H in Hd'.
  destruct (decide (pid = pid')) as [<-|Hne].
  - rewrite lookup_insert_eq in Hd'. injection Hd' as <-.
    destruct (Hinv pid d Hd) as (s0 & r0 & Hl0 & Hr0 & Hs0).
    destruct (ledger_inj _ _ _ _ _ Hl Hl0) as [<- <-]. clear Hl0.
    pose proof (ledger_doc_ledger (clock w) qc isres d s r Hl) as Hl'.
    eexists _, _. split; [exact Hl'|].
    unfold guard_holds in Hg.
    destruct Hop as [[-> ->]|[[-> ->]|[[-> ->]|[-> ->]]]]; simpl in *.
    + discriminate.
    + destruct (0 <? qc) eqn:E1; destruct (qc <? 0) eqn:E2; simpl in Hg; lia.
    + destruct (qc <? 0) eqn:E2; [|lia].
      apply andb_true_iff in Hg as [G1 G2]. lia.
    + destruct (qc <? 0) eqn:E2; lia.
  - rewrite lookup_insert_ne in Hd' by done. eauto.
Qed.

(** C3, as the code has it.  Over any sequence of ledger requests with
    non-negative quantities, whatever each of them answers: every product
    keeps [0 ≤ reserved_stock] and [0 ≤ stock_quantity]; and when the
    sequence holds no reserve request (only releases, confirms and
    restocks), every product keeps [reserved_stock ≤ stock_quantity]. *)
Theorem ledger_invariant_preserved ops : ∀ w,
  Forall (fun op => 0 ≤ op_quantity op) ops →
  (ledger_nonneg w → ledger_nonneg (run_ops ops w))
  ∧ (Forall (fun op => is_reserve op = false) ops →
     ledger_invariant w → ledger_invariant (run_ops ops w)).
Proof.
  induction ops as [|op ops IH]; intros w Hq; [by split|].
  inversion Hq as [|? ? Hq1 Hq2]; subst. simpl. split.
  - intros Hinv. apply IH; [assumption|]. by apply ledger_nonneg_step.
  - intros Hnr Hinv. inversion Hnr as [|? ? Hn1 Hn2]; subst.
    apply IH; [assumption|assumption|]. by apply ledger_invariant_step.
Qed.

End LedgerClaims.

Lemma shelf_ledger_invariant s r : 0 ≤ r → r ≤ s → ledger_invariant (shelf s r).
Proof.
  intros H1 H2 pid d Hd. unfold shelf in Hd. simpl in Hd.
  apply lookup_insert_Some in Hd as [[_ <-]|[_ Hd]].
  - exists s, r. repeat split; assumption.
  - rewrite lookup_empty in Hd. discriminate.
Qed.

Lemma confirm_reduces_stock_and_reserved_witness :
  (∀ w', confirm pid1 4 (shelf 10 6) = (Ok true, w') →
     4 ≤ 10 ∧ 4 ≤ 6 ∧
     ∃ d', products w' !! pid1 = Some d' ∧ ledger d' (10 - 4) (6 - 4)
           ∧ available_stock d' = available_stock (product_doc 10 6))
  ∧ (healthy (shelf 10 6) → 4 ≤ 10 → 4 ≤ 6 →
     ∃ w', confirm pid1 4 (shelf 10 6) = (Ok true, w')).
Proof.
  apply (confirm_reduces_stock_and_reserved pid1 4 (shelf 10 6) (product_doc 10 6) 10 6).
  - lia.
  - reflexivity.
  - split; reflexivity.
Defined.

Lemma update_stock_atomic_outcomes_witness :
  update_stock_atomic pid2 5 true (shelf 3 0) = (Ok false, set_product_faults (@tail _) (shelf 3 0))
  ∧ (∃ b w', update_stock_atomic pid1 5 true (shelf 3 0) = (Ok b, w')
             ∧ b = guard_holds 5 true 3 0
             ∧ (b = false → w' = set_product_faults (@tail _) (shelf 3 0)))
  ∧ (∃ e', update_stock_atomic pid1 5 true
             (set_product_faults (fun _ => [Some (PyMongoError "connection reset")]) (shelf 3 0))
           = (Raise e', set_product_faults (@tail _)
                (set_product_faults (fun _ => [Some (PyMongoError "connection reset")]) (shelf 3 0)))).
Proof.
  split; [|split].
  - apply (proj1 (update_stock_atomic_outcomes pid2 5 true (shelf 3 0))); [exact I | reflexivity].
  - apply (proj1 (proj2 (update_stock_atomic_outcomes pid1 5 true (shelf 3 0))) (product_doc 3 0) 3 0);
      [exact I | reflexivity | split; reflexivity].
  - apply (proj2 (proj2 (update_stock_atomic_outcomes pid1 5 true
             (set_product_faults (fun _ => [Some (PyMongoError "connection reset")]) (shelf 3 0))))
             (PyMongoError "connection reset") []).
    reflexivity.
Defined.

(** Scenario A on the code: both [reserve(qty=6)] calls against
    [stock_quantity = 10], [reserved_stock = 0] succeed, and [reserved_stock]
    ends at 12, above the 10 units that were available. *)
Lemma scenario_A_both_reserves_succeed :
  ∃ w' d',
    (products (shelf 10 0) !! pid1) ≫= available_stock = Some 10
    ∧ reserve_attempts pid1 [6; 6] (shelf 10 0) = (Ok [true; true], w')
    ∧ products w' !! pid1 = Some d'
    ∧ reserved_stock d' = Some 12
    ∧ 10 < reserved_total [6; 6] [true; true].
Proof.
  vm_compute. eexists _, _. repeat split; reflexivity.
Qed.

Lemma reserve_guard_is_physical_stock_witness :
  ∃ w' d', reserve_attempts pid1 [6; 6] (shelf 10 0) = (Ok [true; true], w')
           ∧ products w' !! pid1 = Some d'
           ∧ ledger d' 10 12.
Proof.
  apply (reserve_guard_is_physical_stock pid1 [6; 6] (shelf 10 0) (product_doc 10 0) 10 0).
  - constructor.
  - reflexivity.
  - split; reflexivity.
  - repeat constructor.
Defined.

(** A reserve request breaks [reserved_stock ≤ stock_quantity]: against
    [stock_quantity = 10], [reserved_stock = 6], reserving 6 more succeeds
    and leaves [reserved_stock = 12]. *)
Lemma reserve_breaks_ledger_invariant :
  ledger_invariant (shelf 10 6)
  ∧ ¬ ledger_invariant (run_ops [OpReserve pid1 6] (shelf 10 6)).
Proof.
  split; [apply shelf_ledger_invariant; lia|].
  intros H.
  destruct (H pid1 (<["reserved_stock" := VInt 12]> (<["updated_at" := VDate 0]> (product_doc 10 6))))
    as (s & r & [Hs Hr] & H0 & Hle).
  - reflexivity.
  - vm_compute in Hs, Hr. injection Hs as <-. injection Hr as <-. lia.
Qed.

Lemma ledger_invariant_preserved_witness :
  ledger_invariant (run_ops [OpRelease pid1 2; OpConfirm pid1 3; OpRestock pid1 5] (shelf 10 6)).
Proof.
  apply (ledger_invariant_preserved [OpRelease pid1 2; OpConfirm pid1 3; OpRestock pid1 5] (shelf 10 6)).
  - repeat constructor; simpl; lia.
  - repeat constructor.
  - apply shelf_ledger_invariant; lia.
Defined.

(** ** What the stock side leaves alone *)

Section Frames.

Implicit Types (w : World).

Lemma same_outside_stock_refl w : same_outside_stock w w.
Proof. repeat split. Qed.

Lemma same_outside_stock_trans w1 w2 w3 :
  same_outside_stock w1 w2 → same_outside_stock w2 w3 → same_outside_stock w1 w3.
Proof.
  unfold same_outside_stock. intros H1 H2.
  destruct H1 as (?&?&?&?&?&?&?&?), H2 as (?&?&?&?&?&?&?&?).
  repeat split; congruence.
Qed.

Lemma usa_frame pid qc isres w :
  same_outside_stock w (update_stock_atomic pid qc isres w).2.
Proof.
  unfold update_stock_atomic, bind, utcnow, try_except, find_one_and_update.
  destruct (product_faults w) as [|[e|] l]; simpl.
  - destruct (products w !! _); [|repeat split].
    destruct (matches _ _); [|repeat split].
    destruct (apply_update _ _); repeat split.
  - destruct e; repeat split.
  - destruct (products w !! _); [|repeat split].
    destruct (matches _ _); [|repeat split].
    destruct (apply_update _ _); repeat split.
Qed.

Lemma release_or_confirm_item_frame rid pid c w :
  same_outside_stock w (release_or_confirm_item rid pid c w).2.
Proof.
  unfold release_or_confirm_item.
  destruct (take_record rid pid (reservations w)) as [[q rest]|]; [|apply same_outside_stock_refl].
  unfold bind. pose proof (usa_frame pid (- q) (negb c) w) as H.
  destruct (update_stock_atomic pid (- q) (negb c) w) as [[[|]|e] w1]; simpl in *; exact H.
Qed.

Lemma for_each_frame {A} (f : A → M unit) (l : list A) :
  (∀ a w, same_outside_stock w (f a w).2) →
  ∀ w, same_outside_stock w (for_each f l w).2.
Proof.
  intros Hf. induction l as [|a l IH]; intros w; [apply same_outside_stock_refl|].
  simpl. unfold bind. pose proof (Hf a w) as H.
  destruct (f a w) as [[u|e] w1]; simpl in *; [|exact H].
  eapply same_outside_stock_trans; [exact H|apply IH].
Qed.

Lemma confirm_reservation_trace rid w :
  trace (confirm_reservation rid w).2 = trace w ++ [EvConfirmReservation rid]
  ∧ orders (confirm_reservation rid w).2 = orders w
  ∧ order_faults (confirm_reservation rid w).2 = order_faults w
  ∧ banking (confirm_reservation rid w).2 = banking w
  ∧ clock (confirm_reservation rid w).2 = clock w
  ∧ settings_DEFAULT_CURRENCY (confirm_reservation rid w).2 = settings_DEFAULT_CURRENCY w.
Proof.
  unfold confirm_reservation, bind, log_event.
  set (w0 := set_trace _ w).
  pose proof (for_each_frame (fun it => release_or_confirm_item rid it.1 true)
                (reservation_items rid (reservations w0))
                (fun a w => release_or_confirm_item_frame rid a.1 true w) w0) as H.
  destruct H as (H1&H2&H3&H4&H5&H6&H7&H8).
  rewrite H1, H2, H4, H6, H7, H8. repeat split.
Qed.

End Frames.

(** ** Claims about the order lifecycle *)

Section Lifecycle.

Implicit Types (w : World) (order : OrderInDB).

Lemma valid_transitions_spec (s : OrderStatus) :
  valid_transitions (status_name s) = map status_name (spec_transition_table s).
Proof. destruct s; reflexivity. Qed.

Lemma update_order_status_rejects id_str oid order new_status notes w :
  _to_objectid id_str = Some oid → orders w !! oid = Some order →
  String.eqb new_status (order_status order) = false →
  str_in new_status (valid_transitions (order_status order)) = false →
  update_order_status id_str new_status notes w
  = (Raise (HTTPException 400
             ("Invalid status transition from '" +:+ order_status order +:+
              "' to '" +:+ new_status +:+ "'.")), w).
Proof.
  intros Hid Hord Hne Hnot. unfold update_order_status. rewrite Hid.
  unfold bind at 1. unfold order_get_by_id. rewrite Hord, Hne, Hnot. reflexivity.
Qed.

(** C5.  For every pair of statuses [(from, to)] with [from ≠ to] that the
    transition table does not list, a request to move an order from [from]
    to [to] is rejected with a 400 error, and the world it leaves is the
    world it found: no ledger call, no transaction record, no write to the
    order. *)
Theorem illegal_transition_rejected (from to : OrderStatus) id_str oid order notes w :
  _to_objectid id_str = Some oid → orders w !! oid = Some order →
  order_status order = status_name from →
  from ≠ to → ¬ In to (spec_transition_table from) →
  ∃ detail, update_order_status id_str (status_name to) notes w
            = (Raise (HTTPException 400 detail), w).
Proof.
  intros Hid Hord Hst Hne Hnot. eexists.
  apply (update_order_status_rejects id_str oid order); [exact Hid|exact Hord| |]; rewrite Hst.
  - destruct from, to; try reflexivity; exfalso; apply Hne; reflexivity.
  - destruct from, to; try reflexivity; exfalso; apply Hnot; simpl; tauto.
Qed.

(** C10.  Requesting the status an order already has, terminal or not,
    answers with the order as it is, and the world is left as it was found:
    no ledger call, no transaction record, no write to the order document. *)
Theorem same_status_is_noop id_str oid order notes w :
  _to_objectid id_str = Some oid → orders w !! oid = Some order →
  update_order_status id_str (order_status order) notes w = (Ok (Some order), w).
Proof.
  intros Hid Hord. unfold update_order_status. rewrite Hid.
  unfold bind at 1. unfold order_get_by_id. rewrite Hord, String.eqb_refl. reflexivity.
Qed.

Lemma write_status_trace oid order ns notes w :
  ∃ res w', write_status oid order ns notes w = (res, w')
            ∧ trace w' = trace w ++ [EvOrderStatusWrite oid ns].
Proof.
  unfold write_status, utcnow, order_update, bind, try_except, log_event, pop_order_fault,
    ret, raise. simpl.
  destruct (order_faults w) as [|[e'|] l]; simpl;
    try (destruct e'; simpl);
    try (destruct (orders w !! oid)); simpl;
    eexists _, _; (split; [reflexivity|]); reflexivity.
Qed.

Lemma register_transaction_trace order ns w :
  str_in ns ["processing"; "awaiting_shipment"; "paid"]
  && str_in (order_status order) ["pending"; "confirmed"] = true →
  ∃ w', register_transaction order ns w = (Ok tt, w')
        ∧ trace w' = trace w ++
            EvRecordTransaction (sale_income_trx order (settings_DEFAULT_CURRENCY w)) ::
            match banking w with
            | Ok i :: _ => [EvAddTransactionId (order_db_id order) i]
            | _ => []
            end.
Proof.
  intros Hc. unfold register_transaction. rewrite Hc.
  unfold record_transaction, order_add_transaction_id, bind, try_except, log_event,
    pop_order_fault, ret, raise. simpl.
  destruct (banking w) as [|[i|eb] lb]; simpl.
  - eexists; split; reflexivity.
  - destruct (order_faults w) as [|[e'|] l]; simpl;
      try (destruct e'; simpl);
      try (destruct (orders w !! order_db_id order)); simpl;
      eexists; (split; [reflexivity|]); simpl; rewrite <- !app_assoc; reflexivity.
  - eexists; split; reflexivity.
Qed.

Lemma register_transaction_skip order ns w :
  str_in ns ["processing"; "awaiting_shipment"; "paid"]
  && str_in (order_status order) ["pending"; "confirmed"] = false →
  register_transaction order ns w = (Ok tt, w).
Proof. intros Hc. unfold register_transaction. by rewrite Hc. Qed.

Lemma process_reservation_confirms order ns w :
  order_status order = "pending" →
  str_in ns ["cancelled"; "failed"; "returned"] = false →
  str_in ns ["confirmed"; "paid"; "processing"] = true →
  process_reservation order ns w =
    (let (r, w1) := confirm_reservation (order_ref order) w in
     (match r with
      | Raise e => if is_reservation_error e then Ok tt else Raise e
      | Ok u => Ok u
      end, w1)).
Proof.
  intros Hst H1 H2. unfold process_reservation. rewrite Hst, H1, H2. simpl.
  unfold try_except.
  destruct (confirm_reservation (order_ref order) w) as [[u|e] w1]; [reflexivity|].
  destruct e; reflexivity.
Qed.

(** C7, as the code has it.  On an order in status [pending], a transition
    into [confirmed] or [processing] calls [confirm_reservation(order_ref)]
    first.  If that raises anything other than a [ReservationError], the
    transition stops there.  Otherwise the transition into [confirmed] goes
    straight to the status write, with no transaction record request, and
    the transition into [processing] issues exactly one transaction record
    request after the confirm, adds the created id to the order when the
    banking service answered, and writes the status. *)
Theorem pending_transition_confirms_then_records id_str oid order notes w :
  _to_objectid id_str = Some oid → orders w !! oid = Some order →
  order_status order = "pending" →
  ∃ r1 w1,
    confirm_reservation (order_ref order) w = (r1, w1)
    ∧ (∃ res w', update_order_status id_str "confirmed" notes w = (res, w')
         ∧ trace w' = trace w ++ EvConfirmReservation (order_ref order) ::
             (if transition_proceeds r1
              then [EvOrderStatusWrite oid "confirmed"]
              else []))
    ∧ (∃ res w', update_order_status id_str "processing" notes w = (res, w')
         ∧ trace w' = trace w ++ EvConfirmReservation (order_ref order) ::
             (if transition_proceeds r1
              then EvRecordTransaction (sale_income_trx order (settings_DEFAULT_CURRENCY w)) ::
                   match banking w with
                   | Ok i :: _ => [EvAddTransactionId (order_db_id order) i]
                   | _ => []
                   end ++ [EvOrderStatusWrite oid "processing"]
              else [])).
Proof.
  intros Hid Hord Hst.
  pose proof (confirm_reservation_trace (order_ref order) w) as (Ht&Ho&Hof&Hb&Hc&Hs).
  destruct (confirm_reservation (order_ref order) w) as [r1 w1] eqn:Hc1.
  simpl in Ht, Ho, Hof, Hb, Hc, Hs.
  exists r1, w1. split; [reflexivity|]. split.
  - unfold update_order_status. rewrite Hid.
    unfold bind at 1. unfold order_get_by_id. rewrite Hord, Hst.
    eval_test (String.eqb "confirmed" "pending").
    eval_test (str_in "confirmed" (valid_transitions "pending")).
    cbn [negb].
    unfold bind at 1.
    rewrite (process_reservation_confirms order "confirmed" w Hst eq_refl eq_refl), Hc1.
    destruct r1 as [u|e]; [|destruct (is_reservation_error e) eqn:He]; simpl; rewrite ?He.
    3: { eexists _, _; split; [reflexivity|]. by rewrite Ht. }
    all: unfold bind at 1;
      rewrite (register_transaction_skip order "confirmed" w1) by (rewrite Hst; reflexivity);
      unfold bind at 1; unfold mark_sold_on_delivery;
      eval_test (String.eqb "confirmed" "delivered"); unfold ret at 1;
      destruct (write_status_trace oid order "confirmed" notes w1) as (res & w' & Hrun & Htr);
      exists res, w'; (split; [exact Hrun|]); rewrite Htr, Ht, <- app_assoc; reflexivity.
  - unfold update_order_status. rewrite Hid.
    unfold bind at 1. unfold order_get_by_id. rewrite Hord, Hst.
    eval_test (String.eqb "processing" "pending").
    eval_test (str_in "processing" (valid_transitions "pending")).
    cbn [negb].
    unfold bind at 1.
    rewrite (process_reservation_confirms order "processing" w Hst eq_refl eq_refl), Hc1.
    destruct r1 as [u|e]; [|destruct (is_reservation_error e) eqn:He]; simpl; rewrite ?He.
    3: { eexists _, _; split; [reflexivity|]. by rewrite Ht. }
    all: unfold bind at 1;
      destruct (register_transaction_trace order "processing" w1) as (w2 & Hrun2 & Htr2);
      [rewrite Hst; reflexivity|];
      rewrite Hrun2;
      unfold bind at 1; unfold mark_sold_on_delivery;
      eval_test (String.eqb "processing" "delivered"); unfold ret at 1;
      destruct (write_status_trace oid order "processing" notes w2) as (res & w' & Hrun & Htr);
      exists res, w'; (split; [exact Hrun|]);
      rewrite Htr, Htr2, Ht, Hb, Hs, <- !app_assoc; reflexivity.
Qed.

End Lifecycle.

(** Scenario C, second half: a cancelled order cannot be confirmed. *)
Lemma illegal_transition_rejected_witness :
  ∃ detail, update_order_status oid1 (status_name Confirmed) None (order_world "cancelled")
            = (Raise (HTTPException 400 detail), order_world "cancelled").
Proof.
  apply (illegal_transition_rejected Cancelled Confirmed oid1 oid1 (order1 "cancelled")).
  - reflexivity.
  - reflexivity.
  - reflexivity.
  - discriminate.
  - simpl. tauto.
Defined.

Lemma same_status_is_noop_witness :
  update_order_status oid1 (order_status (order1 "cancelled")) (Some "again")
    (order_world "cancelled")
  = (Ok (Some (order1 "cancelled")), order_world "cancelled").
Proof.
  apply (same_status_is_noop oid1 oid1 (order1 "cancelled")).
  - reflexivity.
  - reflexivity.
Defined.

(** Scenario D on the code: [pending → confirmed] applies the ledger confirm
    (ten physical and two reserved units become eight and none) and writes
    the status, but no transaction record request is issued. *)
Lemma pending_to_confirmed_records_no_transaction :
  ∃ o' w' d',
    update_order_status oid1 "confirmed" None (order_world "pending") = (Ok (Some o'), w')
    ∧ order_status o' = "confirmed"
    ∧ trace w' = [EvConfirmReservation "ORD-000123"; EvOrderStatusWrite oid1 "confirmed"]
    ∧ count_record_transaction (trace w') = 0%nat
    ∧ products w' !! pid1 = Some d'
    ∧ stock_quantity d' = Some 8 ∧ reserved_stock d' = Some 0.
Proof.
  vm_compute. eexists _, _, _. repeat split; reflexivity.
Qed.

Lemma pending_transition_confirms_then_records_witness :
  ∃ r1 w1,
    confirm_reservation (order_ref (order1 "pending")) (order_world "pending") = (r1, w1)
    ∧ (∃ res w', update_order_status oid1 "confirmed" None (order_world "pending") = (res, w')
         ∧ trace w' = trace (order_world "pending") ++
             EvConfirmReservation (order_ref (order1 "pending")) ::
             (if transition_proceeds r1
              then [EvOrderStatusWrite oid1 "confirmed"]
              else []))
    ∧ (∃ res w', update_order_status oid1 "processing" None (order_world "pending") = (res, w')
         ∧ trace w' = trace (order_world "pending") ++
             EvConfirmReservation (order_ref (order1 "pending")) ::
             (if transition_proceeds r1
              then EvRecordTransaction
                     (sale_income_trx (order1 "pending")
                        (settings_DEFAULT_CURRENCY (order_world "pending"))) ::
                   match banking (order_world "pending") with
                   | Ok i :: _ => [EvAddTransactionId (order_db_id (order1 "pending")) i]
                   | _ => []
                   end ++ [EvOrderStatusWrite oid1 "processing"]
              else [])).
Proof.
  apply (pending_transition_confirms_then_records oid1 oid1 (order1 "pending") None
           (order_world "pending")).
  - reflexivity.
  - reflexivity.
  - reflexivity.
Defined.

(** ** Claims about the general product update *)

Section UpdateClaims.

Variable model_validate_prices : value → option (list (string * string)).
Variable base_prepare_data_for_db : gmap string value → gmap string value.

Implicit Types (w : World) (d : gmap string value).

Local Abbreviation run_update := (update model_validate_prices base_prepare_data_for_db).

Lemma filtered_payload_protected (m : gmap string value) k :
  k ∈ protected_fields →
  filter (fun kv : string * value => kv.1 ∉ protected_fields) m !! k = None.
Proof.
  intros Hk. apply map_lookup_filter_None. right. intros v _ Hn. by apply Hn.
Qed.

Lemma set_payload_reserved (other price : gmap string value) now d :
  (price = ∅ ∨ ∃ p, price = {[ "prices" := p ]}) →
  (<["updated_at" := VDate now]>
     (filter (fun kv : string * value => kv.1 ∉ protected_fields) other ∪ price) ∪ d)
    !! "reserved_stock" = d !! "reserved_stock".
Proof.
  intros Hp. rewrite lookup_union_r; [done|].
  rewrite lookup_insert_ne by done.
  apply lookup_union_None. split.
  - apply filtered_payload_protected. apply list_elem_of_In. simpl. tauto.
  - destruct Hp as [->|[p ->]]; [apply lookup_empty|by rewrite lookup_singleton_ne].
Qed.

Lemma update_products id data w res w' :
  run_update id data w = (res, w') →
  products w' = products w
  ∨ ∃ oid d other price now push,
      products w !! oid = Some d
      ∧ (price = ∅ ∨ ∃ p, price = {[ "prices" := p ]})
      ∧ products w'
        = <[oid :=
             let d1 := <["updated_at" := VDate now]>
                         (filter (fun kv : string * value => kv.1 ∉ protected_fields) other ∪ price) ∪ d in
             match push with
             | Some entry => <["price_history" := VHistory (firstn 50 (entry :: doc_price_history d1))]> d1
             | None => d1
             end]> (products w).
Proof.
  unfold update.
  destruct (_to_objectid id) as [oid|]; [|intros [= <- <-]; by left].
  unfold bind at 1. destruct (products w !! oid) as [d|] eqn:Hd; [|intros [= <- <-]; by left].
  set (dd := delete "prices" _).
  set (reason := pop_str _ _ _).
  set (uid := match _ !! "user_id" with Some (VStr u) => Some u | _ => None end).
  set (npd := match _ !! "prices" with Some VNone | None => None | Some v => Some v end).
  assert (Hpp : ∃ r, (match npd with
      | None => ret (∅, None)
      | Some v =>
          match model_validate_prices v with
          | None => raise (ValueError "Invalid 'prices' data provided")
          | Some new_prices =>
              if prices_eq_dec new_prices (doc_prices d)
              then ret (∅, None)
              else ret ({[ "prices" := VPrices new_prices ]},
                        Some {| ph_user_id := uid; ph_reason := reason; ph_prices := new_prices |})
          end
      end : M (gmap string value * option PriceHistoryEntry)) w = (r, w)
      ∧ match r with
        | Ok pp => pp.1 = ∅ ∨ ∃ p, pp.1 = {[ "prices" := p ]}
        | Raise _ => True
        end).
  { destruct npd as [v|]; [|eexists; split; [reflexivity|by left]].
    destruct (model_validate_prices v) as [np|]; [|eexists; split; [reflexivity|done]].
    destruct (prices_eq_dec np (doc_prices d)); eexists; (split; [reflexivity|]); simpl; eauto. }
  destruct Hpp as (r & Hr & Hprice).
  unfold bind at 1. rewrite Hr. destruct r as [[price push]|e]; [|intros [= <- <-]; by left].
  simpl in Hprice. cbn [fst snd].
  destruct (bool_decide _ && _); [intros [= <- <-]; by left|].
  unfold bind, utcnow, try_except. cbn beta iota.
  destruct (product_faults w) as [|[e|] l] eqn:Hf; cbn beta iota.
  - rewrite Hd. intros [= <- <-]. right.
    exists oid, d, (_prepare_data_for_db base_prepare_data_for_db dd), price, (clock w), push.
    split; [done|]. split; [done|]. reflexivity.
  - destruct e; intros [= <- <-]; by left.
  - rewrite Hd. intros [= <- <-]. right.
    exists oid, d, (_prepare_data_for_db base_prepare_data_for_db dd), price, (clock w), push.
    split; [done|]. split; [done|]. reflexivity.
Qed.

Lemma update_keeps_reserved_stock id data w res w' pid d :
  run_update id data w = (res, w') →
  products w !! pid = Some d →
  ∃ d', products w' !! pid = Some d'
        ∧ d' !! "reserved_stock" = d !! "reserved_stock".
Proof.
  intros Hu Hd.
  destruct (update_products id data w res w' Hu)
    as [H|(oid & d0 & other & price & now & push & Hd0 & Hp & H)];
    rewrite H.
  - exists d. done.
  - destruct (decide (oid = pid)) as [->|Hne].
    + rewrite lookup_insert_eq. eexists. split; [reflexivity|].
      assert (d0 = d) as -> by congruence.
      destruct push; cbn zeta.
      * rewrite lookup_insert_ne by done. by apply set_payload_reserved.
      * by apply set_payload_reserved.
    + rewrite lookup_insert_ne by done. exists d. done.
Qed.

Lemma update_writes_stock_quantity id oid data w d v :
  healthy w → _to_objectid id = Some oid → products w !! oid = Some d →
  data !! "prices" = None →
  base_prepare_data_for_db
    (delete "prices" (delete "user_id" (delete "price_update_reason" data)))
    !! "stock_quantity" = Some v →
  ∃ d' w', run_update id data w = (Ok (Some d'), w')
           ∧ products w' !! oid = Some d'
           ∧ d' !! "stock_quantity" = Some v.
Proof.
  intros Hh Hid Hd Hnp Hv. unfold update. rewrite Hid.
  unfold bind at 1. rewrite Hd.
  rewrite !(lookup_delete_ne _ _ "prices") by done. rewrite Hnp.
  unfold bind at 1. unfold ret at 1. cbn [fst snd].
  set (payload := filter _ _ ∪ ∅).
  assert (Hpl : payload !! "stock_quantity" = Some v).
  { unfold payload. rewrite (right_id ∅ (∪)).
    apply map_lookup_filter_Some. split; [exact Hv|].
    simpl. intros Hin. apply list_elem_of_In in Hin. simpl in Hin.
    repeat (destruct Hin as [Hin|Hin]; [discriminate|]). exact Hin. }
  rewrite bool_decide_eq_false_2.
  2: { intros Heq. rewrite Heq, lookup_empty in Hpl. discriminate. }
  cbn [andb]. unfold bind, utcnow, try_except. cbn beta iota.
  unfold healthy in Hh.
  destruct (product_faults w) as [|[e|] l] eqn:Hf; try contradiction; cbn beta iota;
    rewrite Hd; eexists _, _; (split; [reflexivity|]); simpl;
    rewrite lookup_insert_eq; (split; [reflexivity|]);
    (rewrite lookup_union_l'; [by rewrite lookup_insert_ne|]);
    rewrite lookup_insert_ne by done; eauto.
Qed.

(** C8, as the code has it.  The general product update never writes
    [reserved_stock]: whatever the payload and whatever the outcome, every
    product keeps the [reserved_stock] it had.  [stock_quantity] is not among
    the protected fields: on a healthy store, a payload without prices whose
    prepared form carries [stock_quantity] overwrites the stored
    [stock_quantity] with it. *)
Theorem update_protects_reserved_stock_only id data w :
  (∀ res w' pid d,
     run_update id data w = (res, w') → products w !! pid = Some d →
     ∃ d', products w' !! pid = Some d'
           ∧ d' !! "reserved_stock" = d !! "reserved_stock")
  ∧ (∀ oid d v,
       healthy w → _to_objectid id = Some oid → products w !! oid = Some d →
       data !! "prices" = None →
       base_prepare_data_for_db
         (delete "prices" (delete "user_id" (delete "price_update_reason" data)))
         !! "stock_quantity" = Some v →
       ∃ d' w', run_update id data w = (Ok (Some d'), w')
                ∧ products w' !! oid = Some d'
                ∧ d' !! "stock_quantity" = Some v).
Proof.
  split.
  - intros res w' pid d. apply update_keeps_reserved_stock.
  - intros oid d v. apply update_writes_stock_quantity.
Qed.

End UpdateClaims.

(** A payload that carries [stock_quantity] goes through the general update:
    the product's ten units become five, outside [update_stock_atomic]. *)
Lemma update_overwrites_stock_quantity :
  ∃ d' w',
    update (fun _ => None) (fun data => data) pid1
      {[ "stock_quantity" := VInt 5 ]} (shelf 10 0) = (Ok (Some d'), w')
    ∧ (products (shelf 10 0) !! pid1) ≫= stock_quantity = Some 10
    ∧ (products w' !! pid1) ≫= stock_quantity = Some 5.
Proof.
  vm_compute. eexists _, _. repeat split; reflexivity.
Qed.

Lemma update_protects_reserved_stock_only_witness :
  (∃ d', products
           (update (fun _ => None) (fun data => data) pid1
              {[ "reserved_stock" := VInt 0; "name" := VStr "widget" ]} (shelf 10 4)).2
           !! pid1 = Some d'
         ∧ d' !! "reserved_stock" = product_doc 10 4 !! "reserved_stock")
  ∧ (∃ d' w',
       update (fun _ => None) (fun data => data) pid1
         {[ "stock_quantity" := VInt 5 ]} (shelf 10 4) = (Ok (Some d'), w')
       ∧ products w' !! pid1 = Some d'
       ∧ d' !! "stock_quantity" = Some (VInt 5)).
Proof.
  split.
  - apply (proj1 (update_protects_reserved_stock_only (fun _ => None) (fun data => data) pid1
                    {[ "reserved_stock" := VInt 0; "name" := VStr "widget" ]} (shelf 10 4))
             (update (fun _ => None) (fun data => data) pid1
                {[ "reserved_stock" := VInt 0; "name" := VStr "widget" ]} (shelf 10 4)).1
             _ pid1 (product_doc 10 4)).
    + apply surjective_pairing.
    + reflexivity.
  - apply (proj2 (update_protects_reserved_stock_only (fun _ => None) (fun data => data) pid1
                    {[ "stock_quantity" := VInt 5 ]} (shelf 10 4))
             pid1 (product_doc 10 4) (VInt 5)).
    + exact I.
    + reflexivity.
    + reflexivity.
    + reflexivity.
    + reflexivity.
Defined.

(** ** Claims about order creation *)

Section Reservation.

Implicit Types (w : World) (d : gmap string value) (pid ref : string)
  (rs : list (string * string * Z)).

Lemma usa_cases pid qc isres w :
  (∀ d, products w !! pid = Some d → ∃ s r, ledger d s r) →
  (¬ healthy w ∧ ∃ e, update_stock_atomic pid qc isres w
                      = (Raise e, set_product_faults (@tail _) w))
  ∨ (healthy w
     ∧ update_stock_atomic pid qc isres w = (Ok false, set_product_faults (@tail _) w)
     ∧ (products w !! pid = None
        ∨ ∃ d s r, products w !! pid = Some d ∧ ledger d s r
                   ∧ guard_holds qc isres s r = false))
  ∨ (healthy w
     ∧ ∃ d s r, products w !! pid = Some d ∧ ledger d s r
                ∧ guard_holds qc isres s r = true
                ∧ update_stock_atomic pid qc isres w
                  = (Ok true, set_products (insert pid (ledger_doc (clock w) qc isres d s r))
                                (set_product_faults (@tail _) w))).
Proof.
  intros Hwf. destruct (healthy_or_fault w) as [Hh | (e & rest & Hf)].
  - right. destruct (products w !! pid) as [d|] eqn:Hd.
    + destruct (Hwf d eq_refl) as (s & r & Hl).
      pose proof (usa_healthy pid qc isres w d s r Hh Hd Hl) as Hrun.
      destruct (guard_holds qc isres s r) eqn:Hg.
      * right. split; [exact Hh|]. exists d, s, r.
        split; [reflexivity|]. split; [exact Hl|]. split; [exact Hg|exact Hrun].
      * left. split; [exact Hh|]. split; [exact Hrun|]. right. exists d, s, r.
        split; [reflexivity|]. split; [exact Hl|exact Hg].
    + left. split; [exact Hh|]. split; [by apply usa_absent|by left].
  - left. split.
    + unfold healthy. rewrite Hf. tauto.
    + exists (handled e). by apply (usa_fault _ _ _ _ e rest).
Qed.

Lemma held_app ref pid rs rs' :
  held ref pid (rs ++ rs') = held ref pid rs + held ref pid rs'.
Proof. induction rs as [|r rs IH]; simpl; [done|]. rewrite IH. lia. Qed.

Lemma held_nonneg ref pid rs (P : string → Prop) :
  Forall (fun r => r.1.1 = ref → 0 ≤ r.2 ∧ P r.1.2) rs → 0 ≤ held ref pid rs.
Proof.
  induction 1 as [|r rs Hr _ IH]; simpl; [done|].
  destruct (String.eqb r.1.1 ref) eqn:E; simpl; [|lia].
  apply String.eqb_eq in E. destruct (Hr E) as [? _].
  destruct (String.eqb r.1.2 pid); lia.
Qed.

Lemma held_no_records ref pid rs : records_of ref rs = [] → held ref pid rs = 0.
Proof.
  induction rs as [|r rs IH]; simpl; [done|].
  unfold records_of in *. simpl.
  destruct (String.eqb r.1.1 ref); simpl; [discriminate|]. intros H. rewrite IH; done.
Qed.

Lemma take_record_spec ref pid rs q rest (P : string → Prop) :
  take_record ref pid rs = Some (q, rest) →
  held ref pid rs = q + held ref pid rest
  ∧ (∀ pid', pid' ≠ pid → held ref pid' rest = held ref pid' rs)
  ∧ (Forall (fun r => r.1.1 = ref → 0 ≤ r.2 ∧ P r.1.2) rs →
     0 ≤ q ∧ P pid ∧ Forall (fun r => r.1.1 = ref → 0 ≤ r.2 ∧ P r.1.2) rest).
Proof.
  revert q rest. induction rs as [|r rs IH]; intros q rest; simpl; [discriminate|].
  destruct (String.eqb r.1.1 ref) eqn:E1; destruct (String.eqb r.1.2 pid) eqn:E2; simpl.
  - intros [= <- <-]. split; [done|]. split.
    + intros pid' Hne. simpl.
      destruct (String.eqb r.1.2 pid') eqn:E3; simpl; [|lia].
      apply String.eqb_eq in E2, E3. congruence.
    + intros HF. inversion HF as [|? ? H1 H2]; subst.
      apply String.eqb_eq in E1, E2. destruct (H1 E1). rewrite <- E2. done.
  - destruct (take_record ref pid rs) as [[q' rest']|]; [|discriminate].
    intros [= <- <-]. destruct (IH q' rest' eq_refl) as (H1 & H2 & H3).
    split; [simpl; rewrite E1, E2; simpl; lia|]. split.
    + intros pid' Hne. simpl. rewrite E1. rewrite (H2 pid' Hne). done.
    + intros HF. inversion HF as [|? ? Ha Hb]; subst.
      destruct (H3 Hb) as (?&?&?). split; [done|]. split; [done|]. by constructor.
  - destruct (take_record ref pid rs) as [[q' rest']|]; [|discriminate].
    intros [= <- <-]. destruct (IH q' rest' eq_refl) as (H1 & H2 & H3).
    split; [simpl; rewrite E1; simpl; lia|]. split.
    + intros pid' Hne. simpl. rewrite E1. simpl. rewrite (H2 pid' Hne). done.
    + intros HF. inversion HF as [|? ? Ha Hb]; subst.
      destruct (H3 Hb) as (?&?&?). split; [done|]. split; [done|]. by constructor.
  - destruct (take_record ref pid rs) as [[q' rest']|]; [|discriminate].
    intros [= <- <-]. destruct (IH q' rest' eq_refl) as (H1 & H2 & H3).
    split; [simpl; rewrite E1; simpl; lia|]. split.
    + intros pid' Hne. simpl. rewrite E1. simpl. rewrite (H2 pid' Hne). done.
    + intros HF. inversion HF as [|? ? Ha Hb]; subst.
      destruct (H3 Hb) as (?&?&?). split; [done|]. split; [done|]. by constructor.
Qed.

(** Taking the record at the head of a reservation. *)
Lemma take_record_head ref pid q rs recs :
  records_of ref rs = (ref, pid, q) :: recs →
  ∃ rest, take_record ref pid rs = Some (q, rest) ∧ records_of ref rest = recs.
Proof.
  induction rs as [|r rs IH]; unfold records_of in *; simpl; [discriminate|].
  destruct (String.eqb r.1.1 ref) eqn:E1; simpl.
  - intros [= -> Hr]. simpl. rewrite String.eqb_refl. simpl. eauto.
  - intros H. destruct (IH H) as (rest & Ht & Hr). rewrite Ht.
    exists (r :: rest). split; [done|]. simpl. by rewrite E1.
Qed.

Lemma take_record_none ref pid rs :
  records_of ref rs = [] → take_record ref pid rs = None.
Proof.
  induction rs as [|r rs IH]; unfold records_of in *; simpl; [done|].
  destruct (String.eqb r.1.1 ref) eqn:E1; simpl; [discriminate|].
  intros H. by rewrite (IH H).
Qed.

Lemma balanced_ext ref w0 w w' :
  products w' = products w → reservations w' = reservations w →
  balanced ref w0 w → balanced ref w0 w'.
Proof. unfold balanced. intros -> ->. done. Qed.

Lemma balanced_wf ref w0 w pid d :
  balanced ref w0 w → products w !! pid = Some d → ∃ s r, ledger d s r.
Proof.
  intros (H1 & H2 & _) Hd. destruct (products w0 !! pid) as [d0|] eqn:E.
  - destruct (H1 pid d0 E) as (d' & s & r0 & Hd' & _ & _ & Hl).
    assert (d' = d) as -> by congruence. eauto.
  - rewrite (H2 pid E) in Hd. discriminate.
Qed.

Lemma balanced_known ref w0 w pid d :
  balanced ref w0 w → products w !! pid = Some d → is_Some (products w0 !! pid).
Proof.
  intros (_ & H2 & _) Hd. destruct (products w0 !! pid) eqn:E; [eauto|].
  rewrite (H2 pid E) in Hd. discriminate.
Qed.

Lemma balanced_start w :
  ledger_nonneg w → ∀ ref, records_of ref (reservations w) = [] → balanced ref w w.
Proof.
  intros Hn ref Hr. split; [|split].
  - intros pid d Hd. destruct (Hn pid d Hd) as (s & r & Hl & Hr0 & _).
    exists d, s, r. rewrite (held_no_records _ _ _ Hr), Z.add_0_r. done.
  - done.
  - apply Forall_forall. intros r Hin Href. exfalso.
    assert (r ∈ records_of ref (reservations w)) as Hin'.
    { unfold records_of. apply list_elem_of_In, filter_In. split.
      - by apply list_elem_of_In.
      - by apply String.eqb_eq. }
    rewrite Hr in Hin'. by apply not_elem_of_nil in Hin'.
Qed.

Lemma balanced_same_ledger ref w0 w :
  balanced ref w0 w → records_of ref (reservations w) = [] → same_ledger w0 w.
Proof.
  intros (H1 & _) Hr pid d0 Hd0.
  destruct (H1 pid d0 Hd0) as (d & s & r0 & Hd & [Hs0 Hr0] & _ & [Hs Hr']).
  rewrite (held_no_records _ _ _ Hr), Z.add_0_r in Hr'.
  exists d. split; [done|]. split; congruence.
Qed.

Lemma balanced_reserve ref w0 w w' pid q d d' s r :
  balanced ref w0 w → 0 ≤ q →
  products w !! pid = Some d → ledger d s r → ledger d' s (r + q) →
  products w' = <[pid := d']> (products w) →
  reservations w' = reservations w ++ [(ref, pid, q)] →
  balanced ref w0 w'.
Proof.
  intros Hb Hq Hd Hl Hl' Hp Hr.
  pose proof (balanced_known _ _ _ _ _ Hb Hd) as Hk.
  destruct Hb as (H1 & H2 & H3). split; [|split].
  - intros pid' d0 Hd0. rewrite Hp, Hr, held_app. simpl.
    destruct (H1 pid' d0 Hd0) as (d1 & s1 & r0 & Hd1 & Hl0 & Hr0 & Hl1).
    destruct (decide (pid = pid')) as [<-|Hne].
    + rewrite lookup_insert_eq. exists d', s1, r0.
      assert (d1 = d) as -> by congruence.
      destruct (ledger_inj _ _ _ _ _ Hl Hl1) as [<- ->].
      rewrite !String.eqb_refl. simpl.
      replace (r0 + (held ref pid (reservations w) + (q + 0)))
        with (r0 + held ref pid (reservations w) + q) by lia. done.
    + rewrite lookup_insert_ne by done. exists d1, s1, r0.
      rewrite String.eqb_refl. simpl.
      replace (String.eqb pid pid') with false by (symmetry; by apply String.eqb_neq).
      rewrite !Z.add_0_r. done.
  - intros pid' Hn. rewrite Hp. rewrite lookup_insert_ne; [by apply H2|].
    intros <-. rewrite Hn in Hk. by destruct Hk.
  - rewrite Hr. apply Forall_app. split; [done|]. constructor; [|constructor].
    simpl. done.
Qed.

Lemma balanced_release ref w0 w w' pid q rest d d' s r :
  balanced ref w0 w →
  take_record ref pid (reservations w) = Some (q, rest) →
  products w !! pid = Some d → ledger d s r → ledger d' s (r - q) →
  products w' = <[pid := d']> (products w) →
  reservations w' = rest →
  balanced ref w0 w'.
Proof.
  intros Hb Ht Hd Hl Hl' Hp Hr.
  pose proof (balanced_known _ _ _ _ _ Hb Hd) as Hk.
  destruct Hb as (H1 & H2 & H3).
  destruct (take_record_spec ref pid _ q rest (fun p => is_Some (products w0 !! p)) Ht)
    as (Hh & Hother & HF).
  destruct (HF H3) as (Hq & _ & HF').
  split; [|split].
  - intros pid' d0 Hd0. rewrite Hp, Hr.
    destruct (H1 pid' d0 Hd0) as (d1 & s1 & r0 & Hd1 & Hl0 & Hr0 & Hl1).
    destruct (decide (pid = pid')) as [<-|Hne].
    + rewrite lookup_insert_eq. exists d', s1, r0.
      assert (d1 = d) as -> by congruence.
      destruct (ledger_inj _ _ _ _ _ Hl Hl1) as [<- ->].
      replace (r0 + held ref pid rest) with (r0 + held ref pid (reservations w) - q) by lia.
      done.
    + rewrite lookup_insert_ne by done. exists d1, s1, r0.
      rewrite (Hother pid') by done. done.
  - intros pid' Hn. rewrite Hp. rewrite lookup_insert_ne; [by apply H2|].
    intros <-. rewrite Hn in Hk. by destruct Hk.
  - by rewrite Hr.
Qed.

Lemma reserve_stock_step ref pid q w0 w r w' :
  0 ≤ q → balanced ref w0 w → reserve_stock ref pid q w = (r, w') →
  balanced ref w0 w'
  ∧ reservations w' = reservations w ++ (if reservation_failed r then [] else [(ref, pid, q)])
  ∧ orders w' = orders w
  ∧ trace w' = trace w ++ [EvReserveStock ref pid q].
Proof.
  intros Hq Hb. unfold reserve_stock, bind, log_event.
  set (wl := set_trace _ w).
  assert (Hbl : balanced ref w0 wl) by (by apply (balanced_ext ref w0 w)).
  destruct (usa_cases pid q true wl (fun d => balanced_wf ref w0 wl pid d Hbl))
    as [(_ & e & Hrun) | [(_ & Hrun & _) | (_ & d & s & r0 & Hd & Hl & Hg & Hrun)]];
    rewrite Hrun; intros [= <- <-]; simpl.
  - split; [by apply (balanced_ext ref w0 w)|]. by rewrite app_nil_r.
  - split; [by apply (balanced_ext ref w0 w)|]. by rewrite app_nil_r.
  - split; [|done].
    eapply (balanced_reserve ref w0 w _ pid q d _ s r0 Hb Hq Hd Hl
              (ledger_doc_ledger (clock wl) q true d s r0 Hl)); reflexivity.
Qed.

Lemma release_item_step ref pid w0 w r w' :
  balanced ref w0 w → release_or_confirm_item ref pid false w = (r, w') →
  balanced ref w0 w'
  ∧ orders w' = orders w ∧ trace w' = trace w
  ∧ (fault_free w → fault_free w')
  ∧ (healthy w → ∀ q recs, records_of ref (reservations w) = (ref, pid, q) :: recs →
       r = Ok tt ∧ records_of ref (reservations w') = recs)
  ∧ (records_of ref (reservations w) = [] → r = Ok tt ∧ w' = w).
Proof.
  intros Hb. unfold release_or_confirm_item.
  destruct (take_record ref pid (reservations w)) as [[q rest]|] eqn:Ht.
  2: { intros [= <- <-]. split; [done|]. split; [done|]. split; [done|].
       split; [done|]. split; [|done].
       intros _ q recs Hr. destruct (take_record_head _ _ _ _ _ Hr) as (? & Ht' & _).
       congruence. }
  destruct Hb as (H1 & H2 & H3).
  destruct (take_record_spec ref pid _ q rest (fun p => is_Some (products w0 !! p)) Ht)
    as (Hh & Hother & HF).
  destruct (HF H3) as (Hq & [d0 Hd0] & HF').
  destruct (H1 pid d0 Hd0) as (d & s & r0 & Hd & Hl0 & Hr0 & Hl).
  assert (Hb : balanced ref w0 w) by done.
  assert (Hheld : 0 ≤ held ref pid rest).
  { exact (held_nonneg ref pid rest (fun p => is_Some (products w0 !! p)) HF'). }
  unfold bind. simpl negb.
  destruct (healthy_or_fault w) as [Hhl | (e & frest & Hf)].
  - rewrite (usa_healthy pid (- q) true w d s _ Hhl Hd Hl).
    assert (Hg : guard_holds (- q) true s (r0 + held ref pid (reservations w)) = true).
    { unfold guard_holds.
      replace (0 <? - q) with false by (symmetry; apply Z.ltb_ge; lia).
      destruct (- q <? 0) eqn:E; [|done]. simpl. apply Z.leb_le. lia. }
    rewrite Hg. intros [= <- <-]. simpl.
    split.
    { eapply (balanced_release ref w0 w _ pid q rest d _ s _ Hb Ht Hd Hl); try reflexivity.
      pose proof (ledger_doc_ledger (clock w) (- q) true d s _ Hl) as Hl'. simpl in Hl'.
      replace (r0 + held ref pid (reservations w) - q)
        with (r0 + held ref pid (reservations w) + - q) by lia. exact Hl'. }
    split; [done|]. split; [done|]. split.
    { intros Hff. unfold fault_free in *. simpl.
      destruct (product_faults w); simpl; [done|]. by inversion Hff. }
    split.
    { intros _ q' recs Hr. split; [done|].
      destruct (take_record_head _ _ _ _ _ Hr) as (rest' & Ht' & Hrest).
      rewrite Ht in Ht'. injection Ht' as _ ->. done. }
    { intros Hr. rewrite (take_record_none _ _ _ Hr) in Ht. discriminate. }
  - rewrite (usa_fault pid (- q) true w e frest Hf). intros [= <- <-]. simpl.
    split; [by apply (balanced_ext ref w0 w)|].
    split; [done|]. split; [done|]. split.
    { intros Hff. unfold fault_free in Hff. rewrite Hf in Hff. inversion Hff; discriminate. }
    split.
    { intros Hhl. unfold healthy in Hhl. rewrite Hf in Hhl. done. }
    { intros Hr. rewrite (take_record_none _ _ _ Hr) in Ht. discriminate. }
Qed.

Lemma gather_total {A} (tasks : list (M A)) :
  ∀ w, ∃ results w1, gather_return_exceptions tasks w = (Ok results, w1).
Proof.
  induction tasks as [|t ts IH]; intros w; simpl; [eauto|].
  destruct (t w) as [r w1]. destruct (IH w1) as (results & w2 & ->). eauto.
Qed.

Lemma gather_cons {A} (t : M A) ts w :
  gather_return_exceptions (t :: ts) w
  = (let '(r, w1) := t w in
     match gather_return_exceptions ts w1 with
     | (Ok results, w2) => (Ok (r :: results), w2)
     | (Raise e, w2) => (Raise e, w2)
     end).
Proof. reflexivity. Qed.

Lemma records_of_app ref rs rs' :
  records_of ref (rs ++ rs') = records_of ref rs ++ records_of ref rs'.
Proof. unfold records_of. apply List.filter_app. Qed.

Lemma reserve_phase ref w0 su : ∀ w results w1,
  balanced ref w0 w →
  gather_return_exceptions (reserve_tasks ref su) w = (Ok results, w1) →
  balanced ref w0 w1
  ∧ length results = length su
  ∧ reservations w1
    = reservations w ++
      map (fun ir => (ref, ir.1.1, Z.abs ir.1.2))
          (List.filter (fun ir => negb (reservation_failed ir.2)) (combine su results))
  ∧ orders w1 = orders w
  ∧ trace w1 = trace w ++ map (fun info => EvReserveStock ref info.1 (Z.abs info.2)) su.
Proof.
  induction su as [|[pid q] su IH]; intros w results w1 Hb.
  - simpl. intros [= <- <-]. simpl. rewrite !app_nil_r. done.
  - change (reserve_tasks ref ((pid, q) :: su))
      with (reserve_stock ref pid (Z.abs q) :: reserve_tasks ref su).
    rewrite gather_cons.
    destruct (reserve_stock ref pid (Z.abs q) w) as [r wa] eqn:Hr.
    destruct (reserve_stock_step ref pid (Z.abs q) w0 w r wa (Z.abs_nonneg q) Hb Hr)
      as (Hba & Hres & Hord & Htr).
    destruct (gather_total (reserve_tasks ref su) wa) as (results' & wb & Hg).
    rewrite Hg. intros [= <- <-].
    destruct (IH wa results' wb Hba Hg) as (Hbb & Hlen & Hres' & Hord' & Htr').
    split; [done|]. split; [simpl; congruence|]. split.
    + rewrite Hres', Hres. simpl.
      destruct (reservation_failed r); simpl; rewrite <- app_assoc; reflexivity.
    + split; [congruence|]. rewrite Htr', Htr, <- app_assoc. reflexivity.
Qed.

Lemma compensation_phase ref w0 (items : list (string * Z)) : ∀ w res w',
  balanced ref w0 w →
  gather_return_exceptions
    (map (fun pid => _release_or_confirm_single ref pid false) (map fst items)) w = (res, w') →
  balanced ref w0 w'
  ∧ orders w' = orders w
  ∧ trace w' = trace w ++ map (fun pid => EvReleaseOrConfirmSingle ref pid false) (map fst items)
  ∧ (fault_free w →
     records_of ref (reservations w) = map (fun it => (ref, it.1, it.2)) items →
     records_of ref (reservations w') = []).
Proof.
  induction items as [|[pid q] items IH]; intros w res w' Hb.
  - simpl. intros [= <- <-]. rewrite app_nil_r. done.
  - cbn [map fst]. rewrite gather_cons.
    change (_release_or_confirm_single ref pid false w)
      with (release_or_confirm_item ref pid false
              (set_trace (fun t => t ++ [EvReleaseOrConfirmSingle ref pid false]) w)).
    set (wl := set_trace _ w).
    assert (Hbl : balanced ref w0 wl) by (by apply (balanced_ext ref w0 w)).
    destruct (release_or_confirm_item ref pid false wl) as [r wa] eqn:Hr.
    destruct (release_item_step ref pid w0 wl r wa Hbl Hr)
      as (Hba & Hord & Htr & Hff & Hok & _).
    destruct (gather_return_exceptions _ wa) as [res' wb] eqn:Hg.
    destruct (IH wa res' wb Hba Hg) as (Hbb & Hord' & Htr' & Hrec).
    intros Hfin. assert (wb = w') as <-.
    { destruct res'; congruence. }
    clear Hfin. split; [done|]. split; [rewrite Hord', Hord; reflexivity|]. split.
    + rewrite Htr', Htr. simpl. rewrite <- app_assoc. reflexivity.
    + intros Hfree Hrecs. apply Hrec; [by apply Hff|].
      destruct (Hok (fault_free_healthy wl Hfree) q _ Hrecs) as [_ Hrest]. exact Hrest.
Qed.

Lemma reserve_stock_frame ref pid q w :
  orders (reserve_stock ref pid q w).2 = orders w
  ∧ trace (reserve_stock ref pid q w).2 = trace w ++ [EvReserveStock ref pid q].
Proof.
  unfold reserve_stock, bind, log_event. set (wl := set_trace _ w).
  pose proof (usa_frame pid q true wl) as (Ho & _ & _ & _ & _ & Ht & _).
  destruct (update_stock_atomic pid q true wl) as [[[|]|e] wa]; simpl in *;
    rewrite Ho, Ht; done.
Qed.

Lemma reserve_tasks_frame ref su : ∀ w,
  orders (gather_return_exceptions (reserve_tasks ref su) w).2 = orders w
  ∧ trace (gather_return_exceptions (reserve_tasks ref su) w).2
    = trace w ++ map (fun info => EvReserveStock ref info.1 (Z.abs info.2)) su.
Proof.
  induction su as [|[pid q] su IH]; intros w.
  - simpl. by rewrite app_nil_r.
  - change (reserve_tasks ref ((pid, q) :: su))
      with (reserve_stock ref pid (Z.abs q) :: reserve_tasks ref su).
    rewrite gather_cons.
    pose proof (reserve_stock_frame ref pid (Z.abs q) w) as [Ho Ht].
    destruct (reserve_stock ref pid (Z.abs q) w) as [r wa]. simpl in Ho, Ht.
    destruct (IH wa) as [Ho' Ht'].
    destruct (gather_return_exceptions (reserve_tasks ref su) wa) as [[results|e] wb];
      simpl in *; rewrite Ho', Ht', Ho, Ht, <- app_assoc; done.
Qed.

Lemma release_single_run ref pid c w :
  _release_or_confirm_single ref pid c w
  = release_or_confirm_item ref pid c
      (set_trace (fun t => t ++ [EvReleaseOrConfirmSingle ref pid c]) w).
Proof. reflexivity. Qed.

Lemma release_tasks_frame ref pids : ∀ w,
  orders (gather_return_exceptions
            (map (fun pid => _release_or_confirm_single ref pid false) pids) w).2 = orders w
  ∧ trace (gather_return_exceptions
             (map (fun pid => _release_or_confirm_single ref pid false) pids) w).2
    = trace w ++ map (fun pid => EvReleaseOrConfirmSingle ref pid false) pids.
Proof.
  induction pids as [|pid pids IH]; intros w.
  - simpl. by rewrite app_nil_r.
  - cbn [map]. rewrite gather_cons, release_single_run.
    set (wl := set_trace _ w).
    pose proof (release_or_confirm_item_frame ref pid false wl) as (Ho & _ & _ & _ & _ & Ht & _).
    destruct (release_or_confirm_item ref pid false wl) as [r wa]. simpl in Ho, Ht.
    destruct (IH wa) as [Ho' Ht'].
    destruct (gather_return_exceptions _ wa) as [[results|e] wb];
      simpl in *; rewrite Ho', Ht', Ho, Ht, <- app_assoc; done.
Qed.

Lemma records_of_own ref (items : list (string * Z)) :
  records_of ref (map (fun it => (ref, it.1, it.2)) items)
  = map (fun it => (ref, it.1, it.2)) items.
Proof.
  induction items as [|it items IH]; [done|].
  unfold records_of in *. simpl. rewrite String.eqb_refl. simpl. by rewrite IH.
Qed.

(** C2, as the code has it.  When at least one reserve attempt of the batch
    failed, [create_order] issues one compensating release for every item
    whose attempt succeeded, and nothing else; it creates no order record and
    raises the 409 conflict.  The compensation is best effort: provided it
    meets no infrastructure fault (and the store was well formed and the
    order reference fresh), every product ends with the [reserved_stock] and
    the [stock_quantity] it had before the call. *)
Theorem failed_reservation_is_compensated order_data su w results w1 :
  gather_return_exceptions (reserve_tasks (oc_order_ref order_data) su) w = (Ok results, w1) →
  failed_reservations su results ≠ [] →
  ∃ w',
    create_order order_data su w
    = (Raise (HTTPException 409 "Stock reservation failed for one or more items."), w')
    ∧ orders w' = orders w
    ∧ trace w' = trace w1 ++
        map (fun pid => EvReleaseOrConfirmSingle (oc_order_ref order_data) pid false)
            (successful_products su results)
    ∧ trace w1 = trace w ++
        map (fun info => EvReserveStock (oc_order_ref order_data) info.1 (Z.abs info.2)) su
    ∧ (ledger_nonneg w → records_of (oc_order_ref order_data) (reservations w) = [] →
       fault_free w1 → same_ledger w w').
Proof.
  intros Hg Hfail. set (ref := oc_order_ref order_data) in *.
  pose proof (reserve_tasks_frame ref su w) as [Ho1 Ht1]. rewrite Hg in Ho1, Ht1.
  simpl in Ho1, Ht1.
  unfold create_order. unfold bind at 1. fold ref. rewrite Hg.
  destruct (failed_reservations su results) as [|f fs]; [done|].
  unfold successful_products.
  set (F := List.filter (fun ir => negb (reservation_failed ir.2)) (combine su results)).
  set (items := map (fun ir : string * Z * Res bool => (ir.1.1, Z.abs ir.1.2)) F).
  assert (Hpids : map (fun ir : string * Z * Res bool => ir.1.1) F = map fst items).
  { unfold items. rewrite map_map. reflexivity. }
  assert (Hphase : ledger_nonneg w → records_of ref (reservations w) = [] →
            balanced ref w w1
            ∧ records_of ref (reservations w1) = map (fun it => (ref, it.1, it.2)) items).
  { intros Hn Hr.
    destruct (reserve_phase ref w su w results w1 (balanced_start w Hn ref Hr) Hg)
      as (Hb & _ & Hres & _).
    split; [done|]. fold F in Hres.
    assert (Hmm : map (fun ir : string * Z * Res bool => (ref, ir.1.1, Z.abs ir.1.2)) F
                  = map (fun it : string * Z => (ref, it.1, it.2)) items).
    { unfold items. rewrite map_map. reflexivity. }
    rewrite Hres, Hmm, records_of_app, Hr. simpl. apply records_of_own. }
  destruct (map (fun ir : string * Z * Res bool => ir.1.1) F) as [|p ps] eqn:Hsucc.
  - exists w1. unfold bind, ret, raise. split; [done|]. split; [done|].
    split; [by rewrite app_nil_r|]. split; [done|].
    intros Hn Hr _. destruct (Hphase Hn Hr) as [Hb Hrec].
    apply (balanced_same_ledger ref); [done|].
    rewrite Hrec. destruct items; [done|discriminate].
  - cbv zeta. cbv iota.
    pose proof (release_tasks_frame ref (p :: ps) w1) as [Ho2 Ht2].
    destruct (gather_total (map (fun pid => _release_or_confirm_single ref pid false) (p :: ps)) w1)
      as (res & w2 & Hg2).
    rewrite Hg2 in Ho2, Ht2. simpl in Ho2, Ht2.
    exists w2. split.
    { unfold bind. rewrite Hg2. reflexivity. }
    split; [congruence|]. split; [done|]. split; [done|].
    intros Hn Hr Hff. destruct (Hphase Hn Hr) as [Hb Hrec].
    assert (Hpp : p :: ps = map fst items) by congruence.
    rewrite Hpp in Hg2.
    destruct (compensation_phase ref w items w1 _ w2 Hb Hg2) as (Hb2 & _ & _ & Hnone).
    apply (balanced_same_ledger ref); [done|]. by apply Hnone.
Qed.






End Reservation.

Lemma two_products_nonneg a faults ofaults :
  0 ≤ a → ledger_nonneg (two_products a faults ofaults).
Proof.
  intros Ha pid d Hd. unfold two_products in Hd. simpl in Hd.
  apply lookup_insert_Some in Hd as [[_ <-]|[_ Hd]].
  - exists 5, 0. repeat split; lia.
  - apply lookup_singleton_Some in Hd as [_ <-].
    exists a, 0. repeat split; lia.
Qed.

(** Scenario B with a compensation that fails: the reserve of [pid1]
    succeeds, the reserve of [pid2] finds one unit where three are asked, and
    the compensating release of [pid1] meets a database error, which the
    gather swallows.  The conflict is raised, and [pid1] keeps two units
    reserved for an order that does not exist. *)
Lemma failed_compensation_leaves_reservation :
  ∃ w' d',
    create_order order_data1 [(pid1, -2); (pid2, -3)]
      (two_products 1 [None; None; Some (PyMongoError "connection reset")] [])
    = (Raise (HTTPException 409 "Stock reservation failed for one or more items."), w')
    ∧ trace w' = [EvReserveStock "ORD-000124" pid1 2; EvReserveStock "ORD-000124" pid2 3;
                  EvReleaseOrConfirmSingle "ORD-000124" pid1 false]
    ∧ (products (two_products 1 [None; None; Some (PyMongoError "connection reset")] [])
         !! pid1) ≫= reserved_stock = Some 0
    ∧ products w' !! pid1 = Some d'
    ∧ reserved_stock d' = Some 2.
Proof.
  vm_compute. eexists _, _. repeat split; reflexivity.
Qed.

Lemma failed_reservation_is_compensated_witness :
  ∃ w',
    create_order order_data1 [(pid1, -2); (pid2, -3)] (two_products 1 [] [])
    = (Raise (HTTPException 409 "Stock reservation failed for one or more items."), w')
    ∧ orders w' = orders (two_products 1 [] [])
    ∧ trace w' = [EvReserveStock "ORD-000124" pid1 2; EvReserveStock "ORD-000124" pid2 3;
                  EvReleaseOrConfirmSingle "ORD-000124" pid1 false]
    ∧ same_ledger (two_products 1 [] []) w'.
Proof.
  destruct (failed_reservation_is_compensated order_data1 [(pid1, -2); (pid2, -3)]
              (two_products 1 [] []) [Ok true; Ok false]
              (gather_return_exceptions
                 (reserve_tasks "ORD-000124" [(pid1, -2); (pid2, -3)])
                 (two_products 1 [] [])).2)
    as (w' & Hrun & Hord & Htr & Htr1 & Hpost).
  - vm_compute. reflexivity.
  - vm_compute. discriminate.
  - exists w'. split; [exact Hrun|]. split; [exact Hord|]. split.
    + rewrite Htr, Htr1. reflexivity.
    + apply Hpost.
      * apply two_products_nonneg. lia.
      * reflexivity.
      * vm_compute. constructor.
Defined.



(** * Further properties *)

(** ** The four patterns of the ledger primitive *)

Section LedgerLaws.

Implicit Types (w : World) (d : gmap string value) (pid : string).

Lemma ledger_eq d s r s' r' : ledger d s r → s = s' → r = r' → ledger d s' r'.
Proof. by intros H <- <-. Qed.

Lemma release_run pid q w d s r :
  0 < q → q ≤ r → healthy w → products w !! pid = Some d → ledger d s r →
  release pid q w
  = (Ok true, set_products (insert pid (ledger_doc (clock w) (- q) true d s r))
                (set_product_faults (@tail _) w)).
Proof.
  intros Hq Hr Hh Hd Hl. unfold release.
  rewrite (usa_healthy _ _ _ _ _ _ _ Hh Hd Hl). unfold guard_holds.
  replace (0 <? - q) with false by (symmetry; apply Z.ltb_ge; lia).
  replace (- q <? 0) with true by (symmetry; apply Z.ltb_lt; lia).
  replace (Z.abs (- q) <=? r) with true by (symmetry; apply Z.leb_le; lia).
  reflexivity.
Qed.

(** X1.  [update_stock_atomic(pid, -q, is_reservation=True)], the release
    pattern, is guarded by [reserved_stock >= q] alone: on a healthy store it
    succeeds exactly when [q] units are reserved, whatever the physical
    stock, takes them off [reserved_stock] and leaves [stock_quantity] as it
    was; with fewer than [q] reserved it answers [False] and writes
    nothing. *)
Theorem release_needs_reserved_only pid q w d s r :
  0 < q → healthy w → products w !! pid = Some d → ledger d s r →
  (q ≤ r →
     ∃ d', release pid q w
           = (Ok true, set_products (insert pid d') (set_product_faults (@tail _) w))
           ∧ ledger d' s (r - q))
  ∧ (r < q → release pid q w = (Ok false, set_product_faults (@tail _) w)).
Proof.
  intros Hq Hh Hd Hl. split; intros H.
  - exists (ledger_doc (clock w) (- q) true d s r).
    split; [exact (release_run pid q w d s r Hq H Hh Hd Hl)|].
    exact (ledger_doc_ledger (clock w) (- q) true d s r Hl).
  - unfold release. rewrite (usa_healthy _ _ _ _ _ _ _ Hh Hd Hl). unfold guard_holds.
    replace (0 <? - q) with false by (symmetry; apply Z.ltb_ge; lia).
    replace (- q <? 0) with true by (symmetry; apply Z.ltb_lt; lia).
    replace (Z.abs (- q) <=? r) with false by (symmetry; apply Z.leb_gt; lia).
    reflexivity.
Qed.

(** X2.  [update_stock_atomic(pid, +q, is_reservation=False)], a stock entry,
    carries no guard: on a healthy store it succeeds for every product that
    exists and every [q >= 0], adds [q] to [stock_quantity] and leaves
    [reserved_stock] as it was. *)
Theorem restock_always_succeeds pid q w d s r :
  0 ≤ q → healthy w → products w !! pid = Some d → ledger d s r →
  ∃ d', restock pid q w
        = (Ok true, set_products (insert pid d') (set_product_faults (@tail _) w))
        ∧ ledger d' (s + q) r.
Proof.
  intros Hq Hh Hd Hl. unfold restock.
  rewrite (usa_healthy _ _ _ _ _ _ _ Hh Hd Hl). unfold guard_holds.
  replace (q <? 0) with false by (symmetry; apply Z.ltb_ge; lia).
  eexists. split; [reflexivity|].
  pose proof (ledger_doc_ledger (clock w) q false d s r Hl) as Hl'.
  replace (q <? 0) with false in Hl' by (symmetry; apply Z.ltb_ge; lia).
  exact Hl'.
Qed.

(** X3.  A change of zero units meets no guard in either mode: on a healthy
    store [update_stock_atomic(pid, 0, ...)] answers [True] for every
    existing product, leaves both ledger fields as they were, and still
    stamps [updated_at]. *)
Theorem zero_change_always_matches pid isres w d s r :
  healthy w → products w !! pid = Some d → ledger d s r →
  ∃ d', update_stock_atomic pid 0 isres w
        = (Ok true, set_products (insert pid d') (set_product_faults (@tail _) w))
        ∧ ledger d' s r
        ∧ d' !! "updated_at" = Some (VDate (clock w)).
Proof.
  intros Hh Hd Hl. rewrite (usa_healthy _ _ _ _ _ _ _ Hh Hd Hl).
  pose proof (ledger_doc_ledger (clock w) 0 isres d s r Hl) as Hl'.
  assert (Hu : ledger_doc (clock w) 0 isres d s r !! "updated_at" = Some (VDate (clock w))).
  { unfold ledger_doc. destruct isres; simpl; by rewrite lookup_insert_ne, lookup_insert_eq. }
  assert (Hl2 : ledger (ledger_doc (clock w) 0 isres d s r) s r).
  { destruct Hl' as [H1 H2]. split; [rewrite H1|rewrite H2]; f_equal;
      destruct isres; simpl; lia. }
  destruct isres; (change (guard_holds 0 _ s r) with true); cbv iota;
    eexists; (split; [reflexivity|]); (split; [exact Hl2|exact Hu]).
Qed.

(** X4.  The patterns compose as a reservation life cycle.  With [q] units in
    physical stock and no failing driver call, a reserve of [q] followed by
    a release of [q] succeeds twice and brings the ledger back to where it
    was; a reserve of [q] followed by a confirm of [q] succeeds twice and
    leaves [q] fewer physical units and the reserved count where it was. *)
Theorem reserve_then_release_or_confirm pid q w d s r :
  0 < q → q ≤ s → 0 ≤ r → fault_free w → products w !! pid = Some d → ledger d s r →
  (∃ w' d', (ok1 <~ reserve pid q ;; ok2 <~ release pid q ;; ret (ok1, ok2)) w
            = (Ok (true, true), w')
            ∧ products w' !! pid = Some d' ∧ ledger d' s r)
  ∧ (∃ w' d', (ok1 <~ reserve pid q ;; ok2 <~ confirm pid q ;; ret (ok1, ok2)) w
              = (Ok (true, true), w')
              ∧ products w' !! pid = Some d' ∧ ledger d' (s - q) r).
Proof.
  intros Hq Hs Hr Hff Hd Hl.
  assert (Hres : reserve pid q w
                 = (Ok true, set_products (insert pid (ledger_doc (clock w) q true d s r))
                               (set_product_faults (@tail _) w))).
  { unfold reserve. rewrite (usa_healthy _ _ _ _ _ _ _ (fault_free_healthy _ Hff) Hd Hl).
    unfold guard_holds.
    replace (0 <? q) with true by (symmetry; apply Z.ltb_lt; lia).
    replace (q <? 0) with false by (symmetry; apply Z.ltb_ge; lia).
    replace (q <=? s) with true by (symmetry; apply Z.leb_le; lia). reflexivity. }
  set (w1 := set_products _ _) in Hres.
  assert (Hh1 : healthy w1) by (apply fault_free_healthy, fault_free_tail, Hff).
  assert (Hd1 : products w1 !! pid = Some (ledger_doc (clock w) q true d s r))
    by apply lookup_insert_eq.
  pose proof (ledger_doc_ledger (clock w) q true d s r Hl) as Hl1. simpl in Hl1.
  split.
  - assert (Hrun := release_run pid q w1 _ s (r + q) Hq ltac:(lia) Hh1 Hd1 Hl1).
    eexists _, _. unfold bind. rewrite Hres, Hrun. split; [reflexivity|].
    split; [apply lookup_insert_eq|].
    apply (ledger_eq _ _ _ _ _ (ledger_doc_ledger (clock w1) (- q) true _ s (r + q) Hl1)); lia.
  - unfold bind. rewrite Hres. unfold confirm.
    rewrite (usa_healthy _ _ _ _ _ _ _ Hh1 Hd1 Hl1). unfold guard_holds.
    replace (- q <? 0) with true by (symmetry; apply Z.ltb_lt; lia).
    replace (Z.abs (- q) <=? s) with true by (symmetry; apply Z.leb_le; lia).
    replace (Z.abs (- q) <=? r + q) with true by (symmetry; apply Z.leb_le; lia).
    simpl. eexists _, _. split; [reflexivity|]. split; [apply lookup_insert_eq|].
    apply (ledger_eq _ _ _ _ _ (ledger_doc_ledger (clock w1) (- q) false _ s (r + q) Hl1));
      cbv iota; [lia|].
    replace (- q <? 0) with true by (symmetry; apply Z.ltb_lt; lia). lia.
Qed.

Lemma fold_doc_set_frame (sets : list (string * value)) k : ∀ d,
  k ∉ map fst sets → fold_left doc_set sets d !! k = d !! k.
Proof.
  induction sets as [|[k' v] sets IH]; intros d Hk; simpl; [done|].
  rewrite IH by (intros H; apply Hk; simpl; by apply list_elem_of_further).
  unfold doc_set. simpl. apply lookup_insert_ne. intros ->. apply Hk. simpl.
  apply list_elem_of_here.
Qed.

Lemma fold_doc_inc_frame (incs : list (string * Z)) k : ∀ o d',
  k ∉ map fst incs → fold_left doc_inc incs o = Some d' →
  ∃ d, o = Some d ∧ d' !! k = d !! k.
Proof.
  induction incs as [|[k' n] incs IH]; intros o d' Hk; simpl.
  - intros ->. eauto.
  - intros H. destruct (IH _ d' (fun Hin => Hk (list_elem_of_further _ _ _ Hin)) H)
      as (d1 & H1 & H2).
    assert (k' ≠ k) as Hne.
    { intros ->. apply Hk. simpl. apply list_elem_of_here. }
    destruct o as [d|]; [|discriminate]. exists d. split; [done|].
    rewrite H2. simpl in H1.
    destruct (d !! k') as [[]|]; try discriminate; injection H1 as <-;
      by rewrite lookup_insert_ne.
Qed.

Lemma apply_update_frame u d d' k :
  apply_update u d = Some d' →
  k ∉ map fst (op_set u) → k ∉ map fst (op_inc u) → d' !! k = d !! k.
Proof.
  unfold apply_update. intros H Hs Hi.
  destruct (fold_doc_inc_frame _ k _ d' Hi H) as (d1 & [= <-] & ->).
  by apply fold_doc_set_frame.
Qed.

Lemma stock_update_keys now pid qc isres k :
  k ≠ "stock_quantity" → k ≠ "reserved_stock" → k ≠ "updated_at" →
  (k ∉ map fst (op_set (stock_query_and_update now pid qc isres).2))
  ∧ (k ∉ map fst (op_inc (stock_query_and_update now pid qc isres).2)).
Proof.
  intros H1 H2 H3. unfold stock_query_and_update.
  destruct isres; [|destruct (qc <? 0)]; simpl; split; intros Hin;
    apply list_elem_of_In in Hin; simpl in Hin; intuition congruence.
Qed.

Lemma find_one_and_update_products q u w r w' :
  find_one_and_update q u w = (r, w') →
  reservations w' = reservations w
  ∧ (products w' = products w
     ∨ ∃ d d', products w !! q_id q = Some d ∧ apply_update u d = Some d'
               ∧ products w' = <[q_id q := d']> (products w)).
Proof.
  unfold find_one_and_update.
  destruct (product_faults w) as [|[e|] l];
    try (intros [= <- <-]; split; [reflexivity|by left]);
    (destruct (products w !! q_id q) as [d|] eqn:Hd;
     [|intros [= <- <-]; split; [reflexivity|by left]];
     destruct (matches q d); [|intros [= <- <-]; split; [reflexivity|by left]];
     destruct (apply_update u d) as [d'|] eqn:Ha;
     intros [= <- <-]; (split; [reflexivity|]); [right; eauto|by left]).
Qed.

Lemma usa_world pid qc isres w :
  (update_stock_atomic pid qc isres w).2
  = (find_one_and_update (stock_query_and_update (clock w) pid qc isres).1
       (stock_query_and_update (clock w) pid qc isres).2 w).2.
Proof.
  unfold update_stock_atomic, bind, utcnow, try_except.
  destruct (find_one_and_update _ _ w) as [[o|e] w1]; [reflexivity|].
  destruct e; reflexivity.
Qed.

(** X5.  Whatever its arguments and its outcome, [update_stock_atomic]
    touches one product and three of its fields: every other product is as
    it was, no document is created or deleted, in the addressed product only
    [stock_quantity], [reserved_stock] and [updated_at] can differ, and the
    reservation records, the orders and the collaborators are left alone. *)
Theorem update_stock_atomic_touches_ledger_only pid qc isres w r w' :
  update_stock_atomic pid qc isres w = (r, w') →
  (∀ pid', pid' ≠ pid → products w' !! pid' = products w !! pid')
  ∧ (is_Some (products w' !! pid) ↔ is_Some (products w !! pid))
  ∧ (∀ d d' k, products w !! pid = Some d → products w' !! pid = Some d' →
       k ≠ "stock_quantity" → k ≠ "reserved_stock" → k ≠ "updated_at" →
       d' !! k = d !! k)
  ∧ reservations w' = reservations w
  ∧ same_outside_stock w w'.
Proof.
  intros Hrun.
  assert (Hfr : same_outside_stock w w').
  { pose proof (usa_frame pid qc isres w) as H. by rewrite Hrun in H. }
  pose proof (usa_world pid qc isres w) as Hw. rewrite Hrun in Hw. simpl in Hw.
  destruct (find_one_and_update _ _ w) as [r1 w1] eqn:Hf. simpl in Hw. subst w1.
  destruct (find_one_and_update_products _ _ _ _ _ Hf) as [Hres Hp].
  rewrite query_id in Hp.
  destruct Hp as [Hp | (d0 & d1 & Hd0 & Ha & Hp)]; rewrite Hp.
  - split; [done|]. split; [done|]. split; [|done].
    intros d d' k ? ?. congruence.
  - split; [intros pid' Hne; by rewrite lookup_insert_ne|].
    split; [rewrite lookup_insert_eq, Hd0; split; eauto|].
    split; [|done].
    intros d d' k Hd. rewrite lookup_insert_eq. intros [= <-] H1 H2 H3.
    assert (d = d0) as -> by congruence.
    destruct (stock_update_keys (clock w) pid qc isres k H1 H2 H3) as [Hs Hi].
    exact (apply_update_frame _ _ _ _ Ha Hs Hi).
Qed.

End LedgerLaws.

(** Two of six reserved units are released: ten physical units stay, four
    stay reserved. *)
Lemma release_needs_reserved_only_witness :
  (2 ≤ 6 →
     ∃ d', release pid1 2 (shelf 10 6)
           = (Ok true, set_products (insert pid1 d') (set_product_faults (@tail _) (shelf 10 6)))
           ∧ ledger d' 10 (6 - 2))
  ∧ (6 < 2 → release pid1 2 (shelf 10 6)
             = (Ok false, set_product_faults (@tail _) (shelf 10 6))).
Proof.
  apply (release_needs_reserved_only pid1 2 (shelf 10 6) (product_doc 10 6) 10 6).
  - lia.
  - exact I.
  - reflexivity.
  - split; reflexivity.
Defined.

Lemma restock_always_succeeds_witness :
  ∃ d', restock pid1 5 (shelf 0 3)
        = (Ok true, set_products (insert pid1 d') (set_product_faults (@tail _) (shelf 0 3)))
        ∧ ledger d' (0 + 5) 3.
Proof.
  apply (restock_always_succeeds pid1 5 (shelf 0 3) (product_doc 0 3) 0 3).
  - lia.
  - exact I.
  - reflexivity.
  - split; reflexivity.
Defined.

Lemma zero_change_always_matches_witness :
  ∃ d', update_stock_atomic pid1 0 true (shelf 0 0)
        = (Ok true, set_products (insert pid1 d') (set_product_faults (@tail _) (shelf 0 0)))
        ∧ ledger d' 0 0
        ∧ d' !! "updated_at" = Some (VDate (clock (shelf 0 0))).
Proof.
  apply (zero_change_always_matches pid1 true (shelf 0 0) (product_doc 0 0) 0 0).
  - exact I.
  - reflexivity.
  - split; reflexivity.
Defined.

Lemma reserve_then_release_or_confirm_witness :
  (∃ w' d', (ok1 <~ reserve pid1 4 ;; ok2 <~ release pid1 4 ;; ret (ok1, ok2)) (shelf 10 6)
            = (Ok (true, true), w')
            ∧ products w' !! pid1 = Some d' ∧ ledger d' 10 6)
  ∧ (∃ w' d', (ok1 <~ reserve pid1 4 ;; ok2 <~ confirm pid1 4 ;; ret (ok1, ok2)) (shelf 10 6)
              = (Ok (true, true), w')
              ∧ products w' !! pid1 = Some d' ∧ ledger d' (10 - 4) 6).
Proof.
  apply (reserve_then_release_or_confirm pid1 4 (shelf 10 6) (product_doc 10 6) 10 6).
  - lia.
  - lia.
  - lia.
  - constructor.
  - reflexivity.
  - split; reflexivity.
Defined.

Lemma update_stock_atomic_touches_ledger_only_witness :
  (∀ pid', pid' ≠ pid1 →
     products (update_stock_atomic pid1 3 true (shelf 10 0)).2 !! pid'
     = products (shelf 10 0) !! pid')
  ∧ (is_Some (products (update_stock_atomic pid1 3 true (shelf 10 0)).2 !! pid1)
     ↔ is_Some (products (shelf 10 0) !! pid1))
  ∧ (∀ d d' k, products (shelf 10 0) !! pid1 = Some d →
       products (update_stock_atomic pid1 3 true (shelf 10 0)).2 !! pid1 = Some d' →
       k ≠ "stock_quantity" → k ≠ "reserved_stock" → k ≠ "updated_at" →
       d' !! k = d !! k)
  ∧ reservations (update_stock_atomic pid1 3 true (shelf 10 0)).2 = reservations (shelf 10 0)
  ∧ same_outside_stock (shelf 10 0) (update_stock_atomic pid1 3 true (shelf 10 0)).2.
Proof.
  apply (update_stock_atomic_touches_ledger_only pid1 3 true (shelf 10 0)
           (update_stock_atomic pid1 3 true (shelf 10 0)).1).
  apply surjective_pairing.
Defined.

(** ** The general product update *)

Section UpdateLaws.

Variable model_validate_prices : value → option (list (string * string)).
Variable base_prepare_data_for_db : gmap string value → gmap string value.

Implicit Types (w : World) (d : gmap string value).

Local Abbreviation run_update := (update model_validate_prices base_prepare_data_for_db).

(** X6.  An update that has nothing to write is a no-op: when the payload
    carries no prices, or prices equal to the stored ones, and every other
    field it carries is protected, [update] returns the current document and
    the store is not called: no write, no new [updated_at]. *)
Theorem update_without_changes_is_noop id oid data w d :
  _to_objectid id = Some oid → products w !! oid = Some d →
  (data !! "prices" = None ∨ data !! "prices" = Some VNone
   ∨ ∃ v, data !! "prices" = Some v ∧ model_validate_prices v = Some (doc_prices d)) →
  filter (fun kv : string * value => kv.1 ∉ protected_fields)
         (base_prepare_data_for_db (popped data)) = ∅ →
  run_update id data w = (Ok (Some d), w).
Proof.
  intros Hid Hd Hp Hf. unfold update. rewrite Hid. unfold bind at 1. rewrite Hd.
  rewrite !(lookup_delete_ne _ _ "prices") by done.
  unfold _prepare_data_for_db. fold (popped data).
  assert (Hempty : filter (fun kv : string * value => kv.1 ∉ protected_fields)
                     (base_prepare_data_for_db (popped data)) ∪ ∅ = ∅).
  { rewrite Hf. apply (left_id ∅ (∪)). }
  destruct Hp as [-> | [-> | (v & -> & Hv)]].
  - unfold bind, ret. cbn [fst snd]. rewrite bool_decide_eq_true_2 by exact Hempty.
    reflexivity.
  - unfold bind, ret. cbn [fst snd]. rewrite bool_decide_eq_true_2 by exact Hempty.
    reflexivity.
  - destruct v; rewrite ?Hv;
      try (destruct (prices_eq_dec (doc_prices d) (doc_prices d)); [|done]);
      unfold bind, ret; cbn [fst snd];
      rewrite bool_decide_eq_true_2 by exact Hempty; reflexivity.
Qed.

(** X7.  Prices that do not validate are refused before anything is written:
    [update] raises a [ValueError] and the store is as it was, whatever else
    the payload carries. *)
Theorem update_rejects_invalid_prices id oid data w d v :
  _to_objectid id = Some oid → products w !! oid = Some d →
  data !! "prices" = Some v → v ≠ VNone → model_validate_prices v = None →
  ∃ msg, run_update id data w = (Raise (ValueError msg), w).
Proof.
  intros Hid Hd Hp Hv Hn. unfold update. rewrite Hid. unfold bind at 1. rewrite Hd.
  rewrite !(lookup_delete_ne _ _ "prices") by done. rewrite Hp.
  destruct v; try done; rewrite Hn; eexists; reflexivity.
Qed.

(** X8.  A price change is recorded.  When the payload carries valid prices
    that differ from the stored ones, a healthy store ends with the new
    prices and with a history whose newest entry holds the new prices and
    the reason given ([Update via API] when none is), in front of the
    earlier entries; the history is cut to its 50 newest entries. *)
Theorem update_price_change_pushes_history id oid data w d v np :
  healthy w → _to_objectid id = Some oid → products w !! oid = Some d →
  data !! "prices" = Some v → v ≠ VNone →
  model_validate_prices v = Some np → np ≠ doc_prices d →
  base_prepare_data_for_db (popped data) !! "prices" = None →
  ∃ d' w' entry,
    run_update id data w = (Ok (Some d'), w')
    ∧ products w' !! oid = Some d'
    ∧ d' !! "prices" = Some (VPrices np)
    ∧ ph_prices entry = np
    ∧ ph_reason entry = pop_str "price_update_reason" "Update via API" data
    ∧ d' !! "price_history" = Some (VHistory (firstn 50 (entry :: doc_price_history d)))
    ∧ (length (doc_price_history d') ≤ 50)%nat.
Proof.
  intros Hh Hid Hd Hp Hv Hval Hne Hother.
  set (other := filter (fun kv : string * value => kv.1 ∉ protected_fields)
                  (base_prepare_data_for_db (popped data))).
  set (entry := {| ph_user_id :=
                     match delete "price_update_reason" data !! "user_id" with
                     | Some (VStr u) => Some u
                     | _ => None
                     end;
                   ph_reason := pop_str "price_update_reason" "Update via API" data;
                   ph_prices := np |}).
  assert (Ho_prices : other !! "prices" = None).
  { unfold other. apply map_lookup_filter_None. left. exact Hother. }
  assert (Ho_hist : other !! "price_history" = None).
  { unfold other. apply map_lookup_filter_None. right. intros x _ Hn. apply Hn.
    apply list_elem_of_In. simpl. tauto. }
  set (payload := <["updated_at" := VDate (clock w)]> (other ∪ {[ "prices" := VPrices np ]})).
  assert (Hpl_prices : payload !! "prices" = Some (VPrices np)).
  { unfold payload. rewrite lookup_insert_ne by done.
    rewrite lookup_union_r by exact Ho_prices. apply lookup_singleton_eq. }
  assert (Hpl_hist : payload !! "price_history" = None).
  { unfold payload. rewrite lookup_insert_ne by done.
    apply lookup_union_None. split; [exact Ho_hist|]. by rewrite lookup_singleton_ne. }
  assert (Hhist : doc_price_history (payload ∪ d) = doc_price_history d).
  { unfold doc_price_history. by rewrite lookup_union_r. }
  assert (Hrun : ∃ d' w', run_update id data w = (Ok (Some d'), w')
            ∧ products w' !! oid = Some d'
            ∧ d' = <["price_history" := VHistory (firstn 50 (entry :: doc_price_history (payload ∪ d)))]>
                     (payload ∪ d)).
  { unfold update. rewrite Hid. unfold bind at 1. rewrite Hd.
    rewrite !(lookup_delete_ne _ _ "prices") by done. rewrite Hp.
    unfold _prepare_data_for_db. fold (popped data). fold other.
    destruct v; try done; rewrite Hval;
      (destruct (prices_eq_dec np (doc_prices d)) as [Heq|_]; [done|]);
      unfold bind at 1; unfold ret at 1; cbn [fst snd];
      (rewrite bool_decide_eq_false_2;
       [|intros Heq; pose proof (f_equal (fun m : gmap string value => m !! "prices") Heq) as Hl;
         simpl in Hl; rewrite lookup_union_r in Hl by exact Ho_prices;
         rewrite lookup_singleton_eq, lookup_empty in Hl; discriminate]);
      cbn [andb]; unfold bind, utcnow, try_except; cbn beta iota;
      unfold healthy in Hh;
      (destruct (product_faults w) as [|[e|] l]; try contradiction; cbn beta iota;
       rewrite Hd; eexists _, _; (split; [reflexivity|]); simpl;
       rewrite lookup_insert_eq; split; reflexivity). }
  destruct Hrun as (d' & w' & Hrun & Hstored & ->).
  eexists _, w', entry. split; [exact Hrun|]. split; [exact Hstored|].
  split; [rewrite lookup_insert_ne by done; by rewrite lookup_union_l'|].
  split; [reflexivity|]. split; [reflexivity|].
  rewrite Hhist. split; [apply lookup_insert_eq|].
  unfold doc_price_history at 1. rewrite lookup_insert_eq. rewrite length_take. lia.
Qed.


End UpdateLaws.

(** A payload of protected fields only changes nothing. *)
Lemma update_without_changes_is_noop_witness :
  update accept_stored_prices (fun data => data) pid1
    {[ "reserved_stock" := VInt 0; "user_id" := VStr "u1" ]} (shelf 10 4)
  = (Ok (Some (product_doc 10 4)), shelf 10 4).
Proof.
  apply (update_without_changes_is_noop accept_stored_prices (fun data => data) pid1 pid1
           {[ "reserved_stock" := VInt 0; "user_id" := VStr "u1" ]} (shelf 10 4)
           (product_doc 10 4)).
  - reflexivity.
  - reflexivity.
  - left. reflexivity.
  - vm_compute. reflexivity.
Defined.

Lemma update_rejects_invalid_prices_witness :
  ∃ msg,
    update accept_stored_prices (fun data => data) pid1
      {[ "prices" := VStr "ten"; "name" := VStr "widget" ]} (shelf 10 4)
    = (Raise (ValueError msg), shelf 10 4).
Proof.
  apply (update_rejects_invalid_prices accept_stored_prices (fun data => data) pid1 pid1
           {[ "prices" := VStr "ten"; "name" := VStr "widget" ]} (shelf 10 4)
           (product_doc 10 4) (VStr "ten")).
  - reflexivity.
  - reflexivity.
  - reflexivity.
  - discriminate.
  - reflexivity.
Defined.

Lemma update_price_change_pushes_history_witness :
  ∃ d' w' entry,
    update accept_stored_prices (fun data => data) pid1
      {[ "prices" := VPrices [("sale_a", "10.00")]; "price_update_reason" := VStr "promo" ]}
      (shelf 10 4) = (Ok (Some d'), w')
    ∧ products w' !! pid1 = Some d'
    ∧ d' !! "prices" = Some (VPrices [("sale_a", "10.00")])
    ∧ ph_prices entry = [("sale_a", "10.00")]
    ∧ ph_reason entry
      = pop_str "price_update_reason" "Update via API"
          {[ "prices" := VPrices [("sale_a", "10.00")]; "price_update_reason" := VStr "promo" ]}
    ∧ d' !! "price_history"
      = Some (VHistory (firstn 50 (entry :: doc_price_history (product_doc 10 4))))
    ∧ (length (doc_price_history d') ≤ 50)%nat.
Proof.
  apply (update_price_change_pushes_history accept_stored_prices (fun data => data) pid1 pid1
           {[ "prices" := VPrices [("sale_a", "10.00")]; "price_update_reason" := VStr "promo" ]}
           (shelf 10 4) (product_doc 10 4) (VPrices [("sale_a", "10.00")])
           [("sale_a", "10.00")]).
  - exact I.
  - reflexivity.
  - reflexivity.
  - reflexivity.
  - discriminate.
  - reflexivity.
  - discriminate.
  - reflexivity.
Defined.


(** ** The order lifecycle *)

Section LifecycleLaws.

Implicit Types (w : World) (order : OrderInDB).

Lemma str_in_In x l : str_in x l = true ↔ In x l.
Proof.
  unfold str_in. rewrite existsb_exists. split.
  - intros (y & Hy & He). apply String.eqb_eq in He. by subst.
  - intros H. exists x. split; [done|apply String.eqb_refl].
Qed.

Lemma update_order_status_legal id_str oid order ns notes w :
  _to_objectid id_str = Some oid → orders w !! oid = Some order →
  String.eqb ns (order_status order) = false →
  str_in ns (valid_transitions (order_status order)) = true →
  update_order_status id_str ns notes w
  = (process_reservation order ns ;;;
     register_transaction order ns ;;;
     mark_sold_on_delivery order ns ;;;
     write_status oid order ns notes) w.
Proof.
  intros Hid Hord Hne Hin. unfold update_order_status. rewrite Hid.
  unfold bind at 1. unfold order_get_by_id. rewrite Hord, Hne, Hin. reflexivity.
Qed.

Lemma release_reservation_trace rid w :
  trace (release_reservation rid w).2 = trace w ++ [EvReleaseReservation rid]
  ∧ banking (release_reservation rid w).2 = banking w
  ∧ settings_DEFAULT_CURRENCY (release_reservation rid w).2 = settings_DEFAULT_CURRENCY w.
Proof.
  unfold release_reservation, bind, log_event.
  set (w0 := set_trace _ w).
  pose proof (for_each_frame (fun it => release_or_confirm_item rid it.1 false)
                (reservation_items rid (reservations w0))
                (fun a w => release_or_confirm_item_frame rid a.1 false w) w0) as H.
  destruct H as (H1&H2&H3&H4&H5&H6&H7&H8).
  rewrite H4, H6, H8. repeat split.
Qed.

Lemma process_reservation_releases order ns w :
  str_in ns ["cancelled"; "failed"; "returned"] = true →
  String.eqb (order_status order) ns = false →
  process_reservation order ns w =
    (let (r, w1) := release_reservation (order_ref order) w in
     (match r with
      | Raise e => if is_reservation_error e then Ok tt else Raise e
      | Ok u => Ok u
      end, w1)).
Proof.
  intros H1 H2. unfold process_reservation. rewrite H1, H2. simpl.
  unfold try_except.
  destruct (release_reservation (order_ref order) w) as [[u|e] w1]; [reflexivity|].
  destruct e; reflexivity.
Qed.

Lemma process_reservation_skips order ns w :
  str_in ns ["cancelled"; "failed"; "returned"]
  && negb (String.eqb (order_status order) ns) = false →
  str_in ns ["confirmed"; "paid"; "processing"]
  && String.eqb (order_status order) "pending" = false →
  process_reservation order ns w = (Ok tt, w).
Proof. intros H1 H2. unfold process_reservation. by rewrite H1, H2. Qed.

Lemma register_transaction_ok order ns w :
  ∃ w' mid, register_transaction order ns w = (Ok tt, w') ∧ trace w' = trace w ++ mid.
Proof.
  destruct (str_in ns ["processing"; "awaiting_shipment"; "paid"]
            && str_in (order_status order) ["pending"; "confirmed"]) eqn:Hc.
  - destruct (register_transaction_trace order ns w Hc) as (w' & Hrun & Htr). eauto.
  - exists w, []. rewrite (register_transaction_skip order ns w Hc), app_nil_r. done.
Qed.

Lemma mark_sold_on_delivery_ok order ns w :
  ∃ w', mark_sold_on_delivery order ns w = (Ok tt, w')
        ∧ trace w' = trace w ++
            (if String.eqb ns "delivered"
             then [EvMarkItemsAsSold (order_db_id order) (prod_quantities (order_items order))]
             else []).
Proof.
  unfold mark_sold_on_delivery. destruct (String.eqb ns "delivered").
  - unfold try_except, mark_items_as_sold, bind, log_event, ret. simpl.
    destruct (stock_service w) as [|[e|] l]; simpl; eexists; split; reflexivity.
  - exists w. by rewrite app_nil_r.
Qed.

Lemma write_status_outcome oid order ns notes w res w' :
  write_status oid order ns notes w = (res, w') →
  (∃ o, res = Ok (Some o) ∧ order_status o = ns ∧ orders w' !! oid = Some o)
  ∨ (∃ detail, res = Raise (HTTPException 500 detail) ∧ orders w' = orders w).
Proof.
  unfold write_status, utcnow, order_update, bind, try_except, log_event, pop_order_fault,
    ret, raise. simpl.
  destruct (order_faults w) as [|[e'|] l]; simpl;
    try (destruct e'; simpl; intros [= <- <-]; right; eauto);
    (destruct (orders w !! oid) eqn:E; simpl; intros [= <- <-];
     [left; eexists; split; [reflexivity|]; split; [reflexivity|]; simpl;
      apply lookup_insert_eq
     |right; eauto]).
Qed.

(** X10.  Only the reservation step can stop a legal transition.  When the
    reservation step raises, [update_order_status] raises the same error and
    goes no further.  When it returns, whatever the banking service and the
    stock service answer, the run reaches the status write: the write is the
    last call made, and the result is either the order stored under its new
    status or the 500 of a failed write. *)
Theorem status_write_survives_collaborators id_str oid order ns notes w r1 w1 :
  _to_objectid id_str = Some oid → orders w !! oid = Some order →
  String.eqb ns (order_status order) = false →
  str_in ns (valid_transitions (order_status order)) = true →
  process_reservation order ns w = (r1, w1) →
  match r1 with
  | Raise e => update_order_status id_str ns notes w = (Raise e, w1)
  | Ok _ =>
      ∃ res w' mid,
        update_order_status id_str ns notes w = (res, w')
        ∧ trace w' = trace w1 ++ mid ++ [EvOrderStatusWrite oid ns]
        ∧ ((∃ o, res = Ok (Some o) ∧ order_status o = ns ∧ orders w' !! oid = Some o)
           ∨ ∃ detail, res = Raise (HTTPException 500 detail))
  end.
Proof.
  intros Hid Hord Hne Hin Hp.
  rewrite (update_order_status_legal id_str oid order ns notes w Hid Hord Hne Hin).
  destruct r1 as [[]|e]; unfold bind at 1; rewrite Hp; [|reflexivity].
  destruct (register_transaction_ok order ns w1) as (w2 & mid2 & Hr2 & Ht2).
  unfold bind at 1. rewrite Hr2.
  destruct (mark_sold_on_delivery_ok order ns w2) as (w3 & Hr3 & Ht3).
  unfold bind at 1. rewrite Hr3.
  destruct (write_status_trace oid order ns notes w3) as (res & w' & Hrun & Htr).
  exists res, w', (mid2 ++ if String.eqb ns "delivered"
                           then [EvMarkItemsAsSold (order_db_id order)
                                   (prod_quantities (order_items order))]
                           else []).
  split; [exact Hrun|]. split.
  - rewrite Htr, Ht3, Ht2, <- !app_assoc. reflexivity.
  - destruct (write_status_outcome _ _ _ _ _ _ _ Hrun) as [(o & -> & Ho & Hs)|(dt & -> & _)];
      [left|right]; eauto.
Qed.

(** X11.  Every legal transition to [cancelled], [failed] or [returned] asks
    the reservation service to release the order's reservation, once and
    before anything else; no transaction is recorded and nothing is marked
    as sold.  The status is then written, unless the release raised
    something other than a [ReservationError]. *)
Theorem cancelling_releases_reservation (from to : OrderStatus) id_str oid order notes w :
  _to_objectid id_str = Some oid → orders w !! oid = Some order →
  order_status order = status_name from →
  In to [Cancelled; Failed; Returned] → In to (spec_transition_table from) →
  ∃ r1 w1,
    release_reservation (order_ref order) w = (r1, w1)
    ∧ ∃ res w',
        update_order_status id_str (status_name to) notes w = (res, w')
        ∧ trace w' = trace w ++ EvReleaseReservation (order_ref order) ::
            (if transition_proceeds r1
             then [EvOrderStatusWrite oid (status_name to)]
             else []).
Proof.
  intros Hid Hord Hst Hto Hlegal.
  pose proof (release_reservation_trace (order_ref order) w) as (Ht & Hb & Hs).
  destruct (release_reservation (order_ref order) w) as [r1 w1] eqn:Hrel.
  simpl in Ht, Hb, Hs. exists r1, w1. split; [reflexivity|].
  assert (Hne : String.eqb (status_name to) (order_status order) = false).
  { rewrite Hst. destruct from, to; try reflexivity; simpl in Hlegal; exfalso; intuition discriminate. }
  assert (Hin : str_in (status_name to) (valid_transitions (order_status order)) = true).
  { rewrite Hst. destruct from, to; try reflexivity; simpl in Hlegal; exfalso; intuition discriminate. }
  assert (Hcancel : str_in (status_name to) ["cancelled"; "failed"; "returned"] = true).
  { destruct to; try reflexivity; simpl in Hto; exfalso; intuition discriminate. }
  assert (Hne' : String.eqb (order_status order) (status_name to) = false).
  { rewrite String.eqb_sym. exact Hne. }
  assert (Hnotrx : str_in (status_name to) ["processing"; "awaiting_shipment"; "paid"]
                   && str_in (order_status order) ["pending"; "confirmed"] = false).
  { destruct to; try reflexivity; simpl in Hto; exfalso; intuition discriminate. }
  assert (Hnodel : String.eqb (status_name to) "delivered" = false).
  { destruct to; try reflexivity; simpl in Hto; exfalso; intuition discriminate. }
  rewrite (update_order_status_legal id_str oid order _ notes w Hid Hord Hne Hin).
  unfold bind at 1.
  rewrite (process_reservation_releases order _ w Hcancel Hne'), Hrel.
  destruct r1 as [u|e]; [|destruct (is_reservation_error e) eqn:He]; simpl; rewrite ?He.
  3: { eexists _, _; split; [reflexivity|]. by rewrite Ht. }
  all: unfold bind at 1; rewrite (register_transaction_skip order _ w1 Hnotrx);
    unfold bind at 1; unfold mark_sold_on_delivery; rewrite Hnodel; unfold ret at 1;
    destruct (write_status_trace oid order (status_name to) notes w1) as (res & w' & Hrun & Htr);
    exists res, w'; (split; [exact Hrun|]); rewrite Htr, Ht, <- app_assoc; reflexivity.
Qed.

(** X12.  An order that is already [confirmed] and moves to [processing] or
    [awaiting_shipment] gets its income transaction requested, once, and its
    reservation is not touched again: the reservation service is not called,
    the banking service is asked to record the sale, the transaction id is
    attached to the order when the banking service returns one, and the
    status is written. *)
Theorem confirmed_order_records_without_confirming (to : OrderStatus) id_str oid order notes w :
  _to_objectid id_str = Some oid → orders w !! oid = Some order →
  order_status order = "confirmed" →
  In to [Processing; AwaitingShipment] →
  ∃ res w',
    update_order_status id_str (status_name to) notes w = (res, w')
    ∧ trace w' = trace w ++
        EvRecordTransaction (sale_income_trx order (settings_DEFAULT_CURRENCY w)) ::
        match banking w with
        | Ok i :: _ => [EvAddTransactionId (order_db_id order) i]
        | _ => []
        end ++ [EvOrderStatusWrite oid (status_name to)].
Proof.
  intros Hid Hord Hst Hto.
  assert (Hne : String.eqb (status_name to) (order_status order) = false).
  { rewrite Hst. destruct to; try reflexivity; simpl in Hto; exfalso; intuition discriminate. }
  assert (Hin : str_in (status_name to) (valid_transitions (order_status order)) = true).
  { rewrite Hst. destruct to; try reflexivity; simpl in Hto; exfalso; intuition discriminate. }
  assert (H1 : str_in (status_name to) ["cancelled"; "failed"; "returned"]
               && negb (String.eqb (order_status order) (status_name to)) = false).
  { rewrite Hst. destruct to; try reflexivity; simpl in Hto; exfalso; intuition discriminate. }
  assert (H2 : str_in (status_name to) ["confirmed"; "paid"; "processing"]
               && String.eqb (order_status order) "pending" = false).
  { rewrite Hst. destruct to; reflexivity. }
  assert (H3 : str_in (status_name to) ["processing"; "awaiting_shipment"; "paid"]
               && str_in (order_status order) ["pending"; "confirmed"] = true).
  { rewrite Hst. destruct to; try reflexivity; simpl in Hto; exfalso; intuition discriminate. }
  assert (H4 : String.eqb (status_name to) "delivered" = false).
  { destruct to; try reflexivity; simpl in Hto; exfalso; intuition discriminate. }
  rewrite (update_order_status_legal id_str oid order _ notes w Hid Hord Hne Hin).
  unfold bind at 1. rewrite (process_reservation_skips order _ w H1 H2).
  destruct (register_transaction_trace order _ w H3) as (w2 & Hr2 & Ht2).
  unfold bind at 1. rewrite Hr2.
  unfold bind at 1. unfold mark_sold_on_delivery. rewrite H4. unfold ret at 1.
  destruct (write_status_trace oid order (status_name to) notes w2) as (res & w' & Hrun & Htr).
  exists res, w'. split; [exact Hrun|].
  rewrite Htr, Ht2, <- !app_assoc. reflexivity.
Qed.

(** X13.  Delivering a shipped order asks the stock service, once, to mark
    the order's units as sold, with the quantity per product, and then
    writes the status; whatever the stock service answers, the write is
    attempted.  Neither the reservation service nor the banking service is
    called, and the product ledger and the reservation records are as they
    were. *)
Theorem delivery_marks_units_sold id_str oid order notes w :
  _to_objectid id_str = Some oid → orders w !! oid = Some order →
  order_status order = "shipped" →
  ∃ res w',
    update_order_status id_str "delivered" notes w = (res, w')
    ∧ trace w' = trace w ++
        [EvMarkItemsAsSold (order_db_id order) (prod_quantities (order_items order));
         EvOrderStatusWrite oid "delivered"]
    ∧ products w' = products w ∧ reservations w' = reservations w.
Proof.
  intros Hid Hord Hst.
  rewrite (update_order_status_legal id_str oid order _ notes w Hid Hord);
    [|rewrite Hst; reflexivity|rewrite Hst; reflexivity].
  unfold bind at 1. rewrite (process_reservation_skips order _ w);
    [|rewrite Hst; reflexivity|rewrite Hst; reflexivity].
  unfold bind at 1. rewrite (register_transaction_skip order _ w) by (rewrite Hst; reflexivity).
  unfold bind at 1.
  unfold mark_sold_on_delivery, write_status, try_except, mark_items_as_sold, utcnow,
    order_update, bind, log_event, pop_order_fault, ret, raise. simpl.
  destruct (stock_service w) as [|[e|] l]; simpl;
    (destruct (order_faults w) as [|[e'|] l']; simpl;
     try (destruct e'; simpl);
     try (destruct (orders w !! oid)); simpl;
     eexists _, _; (split; [reflexivity|]); simpl; rewrite <- ?app_assoc; done).
Qed.

Lemma valid_transition_rank cur new :
  str_in new (valid_transitions cur) = true →
  (status_rank cur < status_rank new)%nat ∧ new ≠ "pending" ∧ new ≠ "paid".
Proof.
  intros H. apply str_in_In in H. revert H. unfold valid_transitions.
  repeat (match goal with
          | |- context [String.eqb cur ?s] =>
              let E := fresh "E" in
              destruct (String.eqb cur s) eqn:E;
              [apply String.eqb_eq in E; subst cur; simpl;
               intros H; repeat (destruct H as [<-|H]; [vm_compute; repeat split; (lia || discriminate)|]);
               destruct H
              |]
          end).
  intros [].
Qed.

Lemma status_rank_le s : (status_rank s ≤ 6)%nat.
Proof.
  unfold status_rank.
  repeat (match goal with |- context [String.eqb s ?t] => destruct (String.eqb s t) end);
    lia.
Qed.

Lemma legal_chain_ranks s rest :
  legal_chain (s :: rest) = true →
  Forall (fun s' => (status_rank s < status_rank s')%nat) rest
  ∧ (length (s :: rest) + status_rank s ≤ 7)%nat.
Proof.
  revert s. induction rest as [|s' rest IH]; intros s H.
  - split; [constructor|]. simpl. pose proof (status_rank_le s). lia.
  - cbn [legal_chain] in H. apply andb_true_iff in H as [H1 H2].
    destruct (valid_transition_rank s s' H1) as (Hlt & _).
    destruct (IH s' H2) as (HF & Hlen). split.
    + constructor; [exact Hlt|]. eapply Forall_impl; [exact HF|]. simpl. intros; lia.
    + simpl in *. lia.
Qed.

(** X14.  The transition table has no cycle: a sequence of statuses in which
    every step is allowed by [valid_transitions] never visits a status twice
    and holds at most seven statuses, so an order changes status at most six
    times. *)
Theorem lifecycle_has_no_cycle chain :
  legal_chain chain = true → (length chain ≤ 7)%nat ∧ NoDup chain.
Proof.
  intros H. split.
  - destruct chain as [|s rest]; [simpl; lia|].
    destruct (legal_chain_ranks s rest H) as [_ Hlen]. lia.
  - induction chain as [|s rest IH]; [constructor|].
    destruct (legal_chain_ranks s rest H) as [HF _].
    constructor.
    + intros Hin. rewrite Forall_forall in HF. specialize (HF s Hin). lia.
    + apply IH. destruct rest as [|s' rest']; [reflexivity|].
      cbn [legal_chain] in H. by apply andb_true_iff in H as [_ H].
Qed.

Lemma requests_transaction_ranks s s' :
  str_in s' (valid_transitions s) = true → requests_transaction s s' = true →
  (2 ≤ status_rank s')%nat.
Proof.
  intros Hlegal H. destruct (valid_transition_rank s s' Hlegal) as (_ & _ & Hpaid).
  unfold requests_transaction in H. apply andb_true_iff in H as [H _].
  apply str_in_In in H. simpl in H.
  destruct H as [<-|[<-|[<-|[]]]]; [vm_compute; lia|vm_compute; lia|done].
Qed.

Lemma transaction_requests_cons s s' rest :
  transaction_requests (s :: s' :: rest)
  = ((if requests_transaction s s' then 1 else 0) + transaction_requests (s' :: rest))%nat.
Proof. reflexivity. Qed.

Lemma legal_chain_cons s s' rest :
  legal_chain (s :: s' :: rest) = str_in s' (valid_transitions s) && legal_chain (s' :: rest).
Proof. reflexivity. Qed.

Lemma no_request_past_confirmed s rest :
  legal_chain (s :: rest) = true → (2 ≤ status_rank s)%nat →
  transaction_requests (s :: rest) = 0%nat.
Proof.
  revert s. induction rest as [|s' rest IH]; intros s H Hr; [reflexivity|].
  rewrite legal_chain_cons in H. apply andb_true_iff in H as [H1 H2].
  destruct (valid_transition_rank s s' H1) as (Hlt & _).
  rewrite transaction_requests_cons. rewrite (IH s' H2) by lia.
  replace (requests_transaction s s') with false; [reflexivity|].
  symmetry. unfold requests_transaction. apply andb_false_iff. right.
  destruct (str_in s ["pending"; "confirmed"]) eqn:E; [|reflexivity].
  apply str_in_In in E. simpl in E.
  destruct E as [<-|[<-|[]]]; vm_compute in Hr; lia.
Qed.

Lemma count_record_transaction_app t1 t2 :
  count_record_transaction (t1 ++ t2)
  = (count_record_transaction t1 + count_record_transaction t2)%nat.
Proof.
  induction t1 as [|ev t1 IH]; [reflexivity|].
  destruct ev; simpl; rewrite IH; reflexivity.
Qed.

(** X15.  An order's income is requested at most once over its life.  The
    banking step asks for a transaction exactly on a step that
    [requests_transaction] selects (to [processing], [awaiting_shipment] or
    [paid], out of [pending] or [confirmed]), and along any sequence of
    transitions that [valid_transitions] allows at most one step is
    selected. *)
Theorem at_most_one_transaction_per_order :
  (∀ order ns w,
     count_record_transaction (trace (register_transaction order ns w).2)
     = (count_record_transaction (trace w)
        + if requests_transaction (order_status order) ns then 1 else 0)%nat)
  ∧ (∀ chain, legal_chain chain = true → (transaction_requests chain ≤ 1)%nat).
Proof.
  split.
  - intros order ns w. unfold requests_transaction.
    destruct (str_in ns ["processing"; "awaiting_shipment"; "paid"]
              && str_in (order_status order) ["pending"; "confirmed"]) eqn:Hc.
    + destruct (register_transaction_trace order ns w Hc) as (w' & Hrun & Htr).
      rewrite Hrun. cbn [snd]. rewrite Htr, count_record_transaction_app.
      destruct (banking w) as [|[i|e] l]; reflexivity.
    + rewrite (register_transaction_skip order ns w Hc). cbn [snd]. lia.
  - intros chain. induction chain as [|s rest IH]; intros H; [simpl; lia|].
    destruct rest as [|s' rest]; [simpl; lia|].
    rewrite legal_chain_cons in H. apply andb_true_iff in H as [H1 H2].
    rewrite transaction_requests_cons.
    destruct (requests_transaction s s') eqn:E.
    + rewrite (no_request_past_confirmed s' rest H2 (requests_transaction_ranks s s' H1 E)). lia.
    + specialize (IH H2). lia.
Qed.

Lemma fold_insert_frame (l : list OrderItemInternal) pid : ∀ m : gmap string Z,
  Forall (fun it => item_product_id it ≠ pid) l →
  fold_left (fun m it => <[item_product_id it := item_quantity it]> m) l m !! pid = m !! pid.
Proof.
  induction l as [|it l IH]; intros m HF; [reflexivity|].
  inversion HF as [|? ? Hne HF']; subst. simpl. rewrite IH by exact HF'.
  by rewrite lookup_insert_ne.
Qed.

(** X16.  The quantities handed to the stock service on delivery are per
    product, not summed: when an order has several lines of one product, the
    quantity of the last such line is the one marked as sold. *)
Theorem prod_quantities_keeps_last_line (l1 l2 : list OrderItemInternal) it :
  Forall (fun it' => item_product_id it' ≠ item_product_id it) l2 →
  prod_quantities (l1 ++ it :: l2) !! item_product_id it = Some (item_quantity it).
Proof.
  intros HF. unfold prod_quantities. rewrite fold_left_app. simpl.
  rewrite fold_insert_frame by exact HF. apply lookup_insert_eq.
Qed.

End LifecycleLaws.

(** The banking service is down while a confirmed order moves to
    [processing]: the status is written all the same. *)
Lemma status_write_survives_collaborators_witness :
  ∃ res w' mid,
    update_order_status oid1 "processing" None
      (set_banking (fun _ => [Raise (RuntimeError "bank down")]) (order_world "confirmed"))
    = (res, w')
    ∧ trace w'
      = trace (set_banking (fun _ => [Raise (RuntimeError "bank down")]) (order_world "confirmed"))
        ++ mid ++ [EvOrderStatusWrite oid1 "processing"]
    ∧ ((∃ o, res = Ok (Some o) ∧ order_status o = "processing" ∧ orders w' !! oid1 = Some o)
       ∨ ∃ detail, res = Raise (HTTPException 500 detail)).
Proof.
  apply (status_write_survives_collaborators oid1 oid1 (order1 "confirmed") "processing" None
           (set_banking (fun _ => [Raise (RuntimeError "bank down")]) (order_world "confirmed"))
           (Ok tt)
           (set_banking (fun _ => [Raise (RuntimeError "bank down")]) (order_world "confirmed"))).
  - reflexivity.
  - reflexivity.
  - reflexivity.
  - reflexivity.
  - reflexivity.
Defined.

Lemma cancelling_releases_reservation_witness :
  ∃ r1 w1,
    release_reservation (order_ref (order1 "pending")) (order_world "pending") = (r1, w1)
    ∧ ∃ res w',
        update_order_status oid1 (status_name Cancelled) None (order_world "pending") = (res, w')
        ∧ trace w' = trace (order_world "pending") ++
            EvReleaseReservation (order_ref (order1 "pending")) ::
            (if transition_proceeds r1
             then [EvOrderStatusWrite oid1 (status_name Cancelled)]
             else []).
Proof.
  apply (cancelling_releases_reservation Pending Cancelled oid1 oid1 (order1 "pending") None
           (order_world "pending")).
  - reflexivity.
  - reflexivity.
  - reflexivity.
  - simpl. tauto.
  - simpl. tauto.
Defined.

Lemma confirmed_order_records_without_confirming_witness :
  ∃ res w',
    update_order_status oid1 (status_name AwaitingShipment) None (order_world "confirmed")
    = (res, w')
    ∧ trace w' = trace (order_world "confirmed") ++
        EvRecordTransaction
          (sale_income_trx (order1 "confirmed")
             (settings_DEFAULT_CURRENCY (order_world "confirmed"))) ::
        match banking (order_world "confirmed") with
        | Ok i :: _ => [EvAddTransactionId (order_db_id (order1 "confirmed")) i]
        | _ => []
        end ++ [EvOrderStatusWrite oid1 (status_name AwaitingShipment)].
Proof.
  apply (confirmed_order_records_without_confirming AwaitingShipment oid1 oid1
           (order1 "confirmed") None (order_world "confirmed")).
  - reflexivity.
  - reflexivity.
  - reflexivity.
  - simpl. tauto.
Defined.

Lemma delivery_marks_units_sold_witness :
  ∃ res w',
    update_order_status oid1 "delivered" None (order_world "shipped") = (res, w')
    ∧ trace w' = trace (order_world "shipped") ++
        [EvMarkItemsAsSold (order_db_id (order1 "shipped"))
           (prod_quantities (order_items (order1 "shipped")));
         EvOrderStatusWrite oid1 "delivered"]
    ∧ products w' = products (order_world "shipped")
    ∧ reservations w' = reservations (order_world "shipped").
Proof.
  apply (delivery_marks_units_sold oid1 oid1 (order1 "shipped") None (order_world "shipped")).
  - reflexivity.
  - reflexivity.
  - reflexivity.
Defined.

(** The longest life of an order: seven statuses. *)
Lemma lifecycle_has_no_cycle_witness :
  (length ["pending"; "confirmed"; "processing"; "awaiting_shipment"; "shipped";
           "delivered"; "returned"] ≤ 7)%nat
  ∧ NoDup ["pending"; "confirmed"; "processing"; "awaiting_shipment"; "shipped";
           "delivered"; "returned"].
Proof.
  apply (lifecycle_has_no_cycle
           ["pending"; "confirmed"; "processing"; "awaiting_shipment"; "shipped";
            "delivered"; "returned"]).
  reflexivity.
Defined.

Lemma at_most_one_transaction_per_order_witness :
  (transaction_requests ["pending"; "confirmed"; "processing"; "awaiting_shipment";
                         "shipped"; "delivered"] ≤ 1)%nat.
Proof.
  apply (proj2 at_most_one_transaction_per_order
           ["pending"; "confirmed"; "processing"; "awaiting_shipment"; "shipped"; "delivered"]).
  reflexivity.
Defined.

(** Two lines of [pid1], of two and of five units: five are marked. *)
Lemma prod_quantities_keeps_last_line_witness :
  prod_quantities
    ([ {| item_product_id := pid1; item_quantity := 2;
          item_product_name := "widget"; item_price_at_purchase := 2500;
          item_selected_price_tier := "sale_a";
          item_margin_at_purchase := None |} ]
     ++ {| item_product_id := pid1; item_quantity := 5;
           item_product_name := "widget"; item_price_at_purchase := 2500;
           item_selected_price_tier := "sale_a";
           item_margin_at_purchase := None |}
     :: [ {| item_product_id := pid2; item_quantity := 1;
             item_product_name := "gadget"; item_price_at_purchase := 1000;
             item_selected_price_tier := "sale_a";
             item_margin_at_purchase := None |} ])
  !! item_product_id
       {| item_product_id := pid1; item_quantity := 5;
          item_product_name := "widget"; item_price_at_purchase := 2500;
          item_selected_price_tier := "sale_a";
          item_margin_at_purchase := None |}
  = Some (item_quantity
            {| item_product_id := pid1; item_quantity := 5;
               item_product_name := "widget"; item_price_at_purchase := 2500;
               item_selected_price_tier := "sale_a";
               item_margin_at_purchase := None |}).
Proof.
  apply (prod_quantities_keeps_last_line
           [ {| item_product_id := pid1; item_quantity := 2;
                item_product_name := "widget"; item_price_at_purchase := 2500;
                item_selected_price_tier := "sale_a";
                item_margin_at_purchase := None |} ]
           [ {| item_product_id := pid2; item_quantity := 1;
                item_product_name := "gadget"; item_price_at_purchase := 1000;
                item_selected_price_tier := "sale_a";
                item_margin_at_purchase := None |} ]).
  constructor; [|constructor].
  simpl. unfold pid1, pid2. discriminate.
Defined.

(** ** The price tier of an order line *)

Section PriceTier.

Context {P : Type}.
Implicit Types (prices : gmap string P) (tiers : list string).

Lemma first_priced_Some prices tiers t p :
  first_priced prices tiers = Some (t, p) → In t tiers ∧ prices !! t = Some p.
Proof.
  induction tiers as [|t' tiers IH]; simpl; [discriminate|].
  destruct (prices !! t') as [p'|] eqn:E.
  - intros [= <- <-]. split; [by left|done].
  - intros H. destruct (IH H). split; [by right|done].
Qed.

Lemma first_priced_None prices tiers :
  first_priced prices tiers = None ↔ ∀ t, In t tiers → prices !! t = None.
Proof.
  induction tiers as [|t' tiers IH]; simpl; [split; [intros _ t []|done]|].
  destruct (prices !! t') as [p'|] eqn:E.
  - split; [discriminate|]. intros H. rewrite (H t') in E by (by left). discriminate.
  - rewrite IH. split.
    + intros H t [<-|Hin]; [done|by apply H].
    + intros H t Hin. apply H. by right.
Qed.

Lemma first_priced_app_l prices l1 l2 t :
  In t l1 → is_Some (prices !! t) →
  ∃ t' p', first_priced prices (l1 ++ l2) = Some (t', p') ∧ In t' l1.
Proof.
  induction l1 as [|a l1 IH]; simpl; [intros []|].
  intros Hin Hs. destruct (prices !! a) as [pa|] eqn:E.
  - exists a, pa. split; [done|by left].
  - destruct Hin as [->|Hin]; [rewrite E in Hs; by destruct Hs|].
    destruct (IH Hin Hs) as (t' & p' & H1 & H2). exists t', p'. split; [done|by right].
Qed.

Lemma channel_tiers_known c tiers t :
  channel_to_sale_tiers c = Some tiers → In t tiers → In t default_tier_order.
Proof.
  unfold channel_to_sale_tiers.
  repeat (match goal with |- context [String.eqb c ?s] => destruct (String.eqb c s) end);
    intros [= <-] Ht; simpl in *; tauto.
Qed.

Lemma profile_tiers_known p tiers t :
  profile_to_sale_tiers p = Some tiers → In t tiers → In t default_tier_order.
Proof.
  unfold profile_to_sale_tiers.
  repeat (match goal with |- context [String.eqb p ?s] => destruct (String.eqb p s) end);
    intros [= <-] Ht; simpl in *; tauto.
Qed.

(** X17.  [_select_price_tier] finds a price whenever the product has one.
    The price it returns is the product's price for the tier it returns, and
    that tier is one of the six sale and resale tiers; it answers
    [("default", None)] exactly when none of the six tiers is priced,
    whatever the customer profile and the channel. *)
Theorem select_price_tier_finds_any_price prices (customer_profile_type channel : option string) :
  (∀ t p, _select_price_tier prices customer_profile_type channel = (t, Some p) →
     prices !! t = Some p ∧ In t default_tier_order)
  ∧ (∀ t, _select_price_tier prices customer_profile_type channel = (t, None) →
       t = "default")
  ∧ (snd (_select_price_tier prices customer_profile_type channel) = None
     ↔ ∀ t, In t default_tier_order → prices !! t = None).
Proof.
  unfold _select_price_tier. cbv zeta.
  match goal with |- context [first_priced prices ?l] => set (tried := l) end.
  assert (Htried : ∀ t, In t tried ↔ In t default_tier_order).
  { intros t. split; [|intros H; apply in_or_app; by right].
    unfold tried. intros H. apply in_app_or in H as [H|H]; [|done].
    destruct customer_profile_type as [p|];
      [destruct (profile_to_sale_tiers p) as [pt|] eqn:Ep|];
      destruct channel as [c|]; try destruct (channel_to_sale_tiers c) as [ct|] eqn:Ec;
      simpl in H; try apply in_app_or in H; try tauto;
      try (destruct H as [H|H]);
      eauto using channel_tiers_known, profile_tiers_known. }
  destruct (first_priced prices tried) as [[t0 p0]|] eqn:E.
  - destruct (first_priced_Some _ _ _ _ E) as [Hin Hp].
    split; [|split].
    + intros t p [= <- <-]. split; [done|by apply Htried].
    + intros t [=].
    + simpl. split; [discriminate|]. intros H.
      rewrite (H t0) in Hp by (by apply Htried). discriminate.
  - split; [|split].
    + intros t p [=].
    + by intros t [= <-].
    + simpl. split; [|done]. intros _ t Ht.
      apply (proj1 (first_priced_None prices tried) E). by apply Htried.
Qed.

(** X18.  The channel decides first.  When the order's channel has tiers of
    its own and the product is priced in one of them, the tier selected is
    one of the channel's tiers, whatever the customer profile. *)
Theorem channel_tiers_come_first prices (customer_profile_type : option string) c tiers t :
  channel_to_sale_tiers c = Some tiers →
  In t tiers → is_Some (prices !! t) →
  In (fst (_select_price_tier prices customer_profile_type (Some c))) tiers.
Proof.
  intros Hc Hin Hs. unfold _select_price_tier. cbv zeta. rewrite Hc. simpl app at 1.
  destruct customer_profile_type as [p|]; [destruct (profile_to_sale_tiers p) as [pt|]|].
  - rewrite <- app_assoc.
    destruct (first_priced_app_l prices tiers (pt ++ default_tier_order) t Hin Hs)
      as (t' & p' & -> & Hin'). exact Hin'.
  - destruct (first_priced_app_l prices tiers default_tier_order t Hin Hs)
      as (t' & p' & -> & Hin'). exact Hin'.
  - destruct (first_priced_app_l prices tiers default_tier_order t Hin Hs)
      as (t' & p' & -> & Hin'). exact Hin'.
Qed.

End PriceTier.

(** A product priced in [sale_b] only, bought by a vip through the ui. *)
Lemma select_price_tier_finds_any_price_witness :
  ({[ "sale_b" := 90 ]} : gmap string Z) !! "sale_b" = Some 90
  ∧ In "sale_b" default_tier_order.
Proof.
  apply (proj1 (select_price_tier_finds_any_price ({[ "sale_b" := 90 ]} : gmap string Z)
                  (Some "vip") (Some "ui")) "sale_b" 90).
  reflexivity.
Defined.

(** A reseller ordering over whatsapp pays the channel's [sale_b], not the
    reseller's [resale_a]. *)
Lemma channel_tiers_come_first_witness :
  In (fst (_select_price_tier ({[ "sale_b" := 90; "resale_a" := 70 ]} : gmap string Z)
             (Some "reseller") (Some "whatsapp")))
     ["sale_b"; "sale_a"].
Proof.
  apply (channel_tiers_come_first ({[ "sale_b" := 90; "resale_a" := 70 ]} : gmap string Z)
           (Some "reseller") "whatsapp" ["sale_b"; "sale_a"] "sale_b").
  - reflexivity.
  - simpl. tauto.
  - eexists. reflexivity.
Defined.
